(** * Anvil: name and tag caching for VK_EXT_debug_marker

    A shallow embedding of [include/misc/debug_marker.h]: the per-handle
    cache [DebugMarkerSupportProviderWorker] and the mixin
    [DebugMarkerSupportProvider] that owns either one worker or a vector of
    delegate workers. *)

From Stdlib Require Import NArith ZArith Ascii String DecimalString.
From stdpp Require Import base option list strings gmap.

Local Open Scope string_scope.
Local Open Scope list_scope.
Local Open Scope nat_scope.

(** ** Values the header passes around *)

(** [void*] handles; [VK_NULL_HANDLE] and [nullptr] are address 0. *)
Definition vk_handle : Type := N.
Definition VK_NULL_HANDLE : vk_handle := 0%N.

(** The Vulkan enumeration is only passed through to the driver. *)
Definition VkDebugReportObjectTypeEXT : Type := N.

(** A [const char*] argument is modelled by its text, the characters in front
    of the terminator; [std::vector<char>] by [list ascii]. *)
Definition tag_bytes : Type := list ascii.

(** [std::weak_ptr<Anvil::BaseDevice>]: empty, or observing the device
    registered under an identifier. Whether the device is still alive is a
    fact of the environment, not of the pointer. *)
Definition device_id : Type := nat.
Definition weak_ptr : Type := option device_id.

(** Modelled from the spec: the device context ([Anvil::BaseDevice], declared
    in misc/types.h). The component asks it one question, whether the
    naming/tagging extension is supported. *)
Record BaseDevice : Type := mkBaseDevice {
  is_ext_debug_marker_available : bool
}.

(** Modelled from the spec: the two driver entry points of the device context,
    [nameObject(device, objectKind, handle, name)] and
    [tagObject(device, objectKind, handle, tagId, sizeBytes, tagPtr)], each
    returning a status. *)
Inductive DriverCall : Type :=
| nameObject (device : weak_ptr) (objectKind : VkDebugReportObjectTypeEXT)
             (handle : vk_handle) (name : string)
| tagObject (device : weak_ptr) (objectKind : VkDebugReportObjectTypeEXT)
            (handle : vk_handle) (tagId : N) (sizeBytes : nat) (tag : tag_bytes).

Inductive VkResult : Type :=
| VK_SUCCESS
| VK_ERROR (code : Z).

(** ** The environment and the monad of operations *)

(** What lives outside the component: the devices that are still alive, the
    driver (any function from a call to a status) and the calls issued so
    far, oldest first. *)
Record World : Type := mkWorld {
  devices : gmap device_id BaseDevice;
  driver : DriverCall → VkResult;
  driver_log : list (DriverCall * VkResult)
}.

(** An operation either returns a value and the new environment, or takes the
    assertion failure path, or leaves with the [std::out_of_range] that
    [std::vector::at] throws. *)
Inductive outcome (A : Type) : Type :=
| Done (a : A) (w : World)
| AssertionFailure
| OutOfRange.
Arguments Done {A} a w.
Arguments AssertionFailure {A}.
Arguments OutOfRange {A}.

Definition M (A : Type) : Type := World → outcome A.

#[global] Instance M_ret : MRet M := λ A a w, Done a w.

#[global] Instance M_bind : MBind M := λ A B f m w,
  match m w with
  | Done a w' => f a w'
  | AssertionFailure => AssertionFailure
  | OutOfRange => OutOfRange
  end.

(** Modelled from the spec: the [anvil_assert] macro (misc/debug.h). A
    violated contract is reported through a fatal assertion: the operation
    stops on the assertion failure path. What a build that compiles the macro
    away does afterwards is outside the model. *)
Definition anvil_assert (assertion : bool) : M unit :=
  λ w, if assertion then Done () w else AssertionFailure.

(** [weak_ptr::expired()] and [weak_ptr::lock()]. *)
Definition expired (p : weak_ptr) : M bool :=
  λ w, Done (bool_decide ((p ≫= λ d, devices w !! d) = None)) w.

Definition lock (p : weak_ptr) : M (option BaseDevice) :=
  λ w, Done (p ≫= λ d, devices w !! d) w.

(** One driver call: the driver answers, the call and its status are
    appended to the log, and the status is handed back. *)
Definition driver_call (c : DriverCall) : M VkResult :=
  λ w, let status := driver w c in
       Done status (mkWorld (devices w) (driver w) (driver_log w ++ [(c, status)])).

(** ** DebugMarkerSupportProviderWorker *)

Module DebugMarkerSupportProviderWorker.

Record t : Type := mk {
  m_device_ptr : weak_ptr;
  m_is_ext_debug_marker_available : bool;
  m_object_name : string;
  m_object_tag_data : tag_bytes;
  m_object_tag_name : N;
  m_vk_object_handle : vk_handle;
  m_vk_object_type : VkDebugReportObjectTypeEXT
}.

Definition with_name (w : t) (name : string) : t :=
  mk (m_device_ptr w) (m_is_ext_debug_marker_available w) name
     (m_object_tag_data w) (m_object_tag_name w)
     (m_vk_object_handle w) (m_vk_object_type w).

Definition with_tag (w : t) (tag_name : N) (data : tag_bytes) : t :=
  mk (m_device_ptr w) (m_is_ext_debug_marker_available w) (m_object_name w)
     data tag_name
     (m_vk_object_handle w) (m_vk_object_type w).

Definition with_vk_handle (w : t) (h : vk_handle) : t :=
  mk (m_device_ptr w) (m_is_ext_debug_marker_available w) (m_object_name w)
     (m_object_tag_data w) (m_object_tag_name w)
     h (m_vk_object_type w).

(** Modelled from the spec: the constructor, defined in the .cpp file. It
    captures the weak reference, asserts that the device has not expired and
    asks it once whether the extension is supported. Name and tag start
    empty, the handle null. *)
Definition new (in_device_ptr : weak_ptr)
    (in_vk_object_type : VkDebugReportObjectTypeEXT) : M t :=
  device ← lock in_device_ptr;
  match device with
  | None => λ _, AssertionFailure
  | Some d =>
      mret (mk in_device_ptr (is_ext_debug_marker_available d) EmptyString [] 0%N
               VK_NULL_HANDLE in_vk_object_type)
  end.

Definition get_name (w : t) : string := m_object_name w.

(** The two out-parameters, as a pair: tag data, then tag name. *)
Definition get_tag (w : t) : tag_bytes * N :=
  (m_object_tag_data w, m_object_tag_name w).

Definition get_vk_handle_internal (w : t) : vk_handle := m_vk_object_handle w.

(** The extension call is attempted iff the extension was available at
    construction and a handle is bound. *)
Definition can_call_driver (w : t) : bool :=
  m_is_ext_debug_marker_available w &&
  negb (m_vk_object_handle w =? VK_NULL_HANDLE)%N.

(** Modelled from the spec: [set_name_internal], defined in the .cpp file.
    Equal to the cached name and not forced: nothing happens. Otherwise the
    cache is updated and, extension and handle permitting, the driver naming
    call is issued; its status is dropped. *)
Definition set_name_internal (w : t) (in_object_name : string)
    (in_should_force : bool) : M t :=
  if bool_decide (in_object_name = m_object_name w) && negb in_should_force
  then mret w
  else
    let w' := with_name w in_object_name in
    if can_call_driver w'
    then
      _ ← driver_call (nameObject (m_device_ptr w') (m_vk_object_type w')
                                  (m_vk_object_handle w') in_object_name);
      mret w'
    else mret w'.

(** Modelled from the spec: [set_tag_internal], defined in the .cpp file. The
    same no-op rule on (tag id, size, bytes); the [in_tag_size] bytes found at
    [in_tag_ptr] are copied into the worker's own buffer. *)
Definition set_tag_internal (w : t) (in_tag_name : N) (in_tag_size : nat)
    (in_tag_ptr : tag_bytes) (in_should_force : bool) : M t :=
  let data := take in_tag_size in_tag_ptr in
  if bool_decide (in_tag_name = m_object_tag_name w) &&
     bool_decide (in_tag_size = length (m_object_tag_data w)) &&
     bool_decide (data = m_object_tag_data w) &&
     negb in_should_force
  then mret w
  else
    let w' := with_tag w in_tag_name data in
    if can_call_driver w'
    then
      _ ← driver_call (tagObject (m_device_ptr w') (m_vk_object_type w')
                                 (m_vk_object_handle w') in_tag_name
                                 in_tag_size data);
      mret w'
    else mret w'.

(** Modelled from the spec: [set_vk_handle_internal], defined in the .cpp
    file. It replaces the represented handle; no driver call results from it.
    The header states when it may be used: with a handle while none is bound
    (binding one over another is an assertion failure), and with
    VK_NULL_HANDLE only after a non-null handle has been assigned; the spec
    lists a null handle where one is required among the assertions. *)
Definition set_vk_handle_internal (w : t) (in_vk_object_handle : vk_handle) : M t :=
  anvil_assert
    (if (in_vk_object_handle =? VK_NULL_HANDLE)%N
     then negb (m_vk_object_handle w =? VK_NULL_HANDLE)%N
     else (m_vk_object_handle w =? VK_NULL_HANDLE)%N);;
  mret (with_vk_handle w in_vk_object_handle).

End DebugMarkerSupportProviderWorker.

Module Worker := DebugMarkerSupportProviderWorker.

(** ** Formatting *)

(** The variadic arguments of a printf-like call. *)
Inductive printf_arg : Type :=
| arg_int (i : Z)
| arg_str (s : string)
| arg_char (c : ascii).

(** [vsnprintf(buffer, size, format, list)] belongs to the C library; what it
    would print, given room, is a parameter [text] of the development. The
    buffer receives at most [size - 1] characters of it and the terminator. *)
Definition vsnprintf (text : string → list printf_arg → string)
    (size : nat) (format : string) (args : list printf_arg) : string :=
  substring 0 (size - 1) (text format args).

(** A printf for the conversions %d, %s, %c and %%, to run examples with. *)
Fixpoint sample_printf (format : string) (args : list printf_arg) : string :=
  match format with
  | String "%" (String "%" rest) => String "%" (sample_printf rest args)
  | String "%" (String "d" rest) =>
      match args with
      | arg_int i :: args' =>
          NilZero.string_of_int (Z.to_int i) +:+ sample_printf rest args'
      | _ => sample_printf rest (tail args)
      end
  | String "%" (String "s" rest) =>
      match args with
      | arg_str s :: args' => s +:+ sample_printf rest args'
      | _ => sample_printf rest (tail args)
      end
  | String "%" (String "c" rest) =>
      match args with
      | arg_char c :: args' => String c (sample_printf rest args')
      | _ => sample_printf rest (tail args)
      end
  | String c rest => String c (sample_printf rest args)
  | EmptyString => EmptyString
  end.

(** ** DebugMarkerSupportProvider *)

Module DebugMarkerSupportProvider.

Record t : Type := mk {
  (* only used if delegate workers have been requested at creation time *)
  m_delegate_workers : list Worker.t;
  m_device_ptr : weak_ptr;
  m_vk_object_type : VkDebugReportObjectTypeEXT;
  (* otherwise *)
  m_worker_ptr : option Worker.t
}.

Definition with_delegate_workers (p : t) (ws : list Worker.t) : t :=
  mk ws (m_device_ptr p) (m_vk_object_type p) (m_worker_ptr p).

Definition with_worker (p : t) (w : Worker.t) : t :=
  mk (m_delegate_workers p) (m_device_ptr p) (m_vk_object_type p) (Some w).

(** [m_worker_ptr == nullptr] *)
Definition worker_is_null (p : t) : bool :=
  match m_worker_ptr p with
  | None => true
  | Some _ => false
  end.

(** The constructor. Without delegate workers the members [m_device_ptr] and
    [m_vk_object_type] are not assigned: the weak pointer is empty and the
    object type, which no operation reads in that mode, is shown as 0. *)
Definition new (in_device_ptr : weak_ptr)
    (in_vk_object_type : VkDebugReportObjectTypeEXT)
    (in_use_delegate_workers : bool) : M t :=
  is_expired ← expired in_device_ptr;
  anvil_assert (negb is_expired);;
  if negb in_use_delegate_workers
  then
    worker ← Worker.new in_device_ptr in_vk_object_type;
    mret (mk [] None 0%N (Some worker))
  else
    mret (mk [] in_device_ptr in_vk_object_type None).

(** The loop of [remove_delegate]: the position of the first worker bound to
    the handle, or the length of the vector ([end()]) when there is none. *)
Fixpoint find_worker (in_vk_object_handle : vk_handle) (workers : list Worker.t) : nat :=
  match workers with
  | [] => 0
  | current_worker :: rest =>
      if (Worker.get_vk_handle_internal current_worker =? in_vk_object_handle)%N
      then 0
      else S (find_worker in_vk_object_handle rest)
  end.

Section Build.

(** Whether the translation unit is compiled with [_DEBUG] defined, and the
    text the C library formats. *)
Variable _DEBUG : bool.
Variable vsnprintf_text : string → list printf_arg → string.

Definition add_delegate (p : t) (in_vk_object_handle : vk_handle) : M t :=
  anvil_assert (worker_is_null p);;
  (if _DEBUG
   then
     mapM (λ delegate,
             anvil_assert
               (negb (Worker.get_vk_handle_internal delegate =? in_vk_object_handle)%N))
          (m_delegate_workers p);;
     mret ()
   else mret ());;
  new_delegate ← Worker.new (m_device_ptr p) (m_vk_object_type p);
  new_delegate ← Worker.set_vk_handle_internal new_delegate in_vk_object_handle;
  let workers := m_delegate_workers p ++ [new_delegate] in
  if (1 <? length workers)%nat
  then
    (* the new delegate is the last element of the vector; it is updated in place *)
    match workers !! 0%nat with
    | None => λ _, OutOfRange
    | Some existing_delegate_worker =>
        let existing_delegate_worker_name := Worker.get_name existing_delegate_worker in
        let '(existing_delegate_worker_tag_data, existing_delegate_worker_tag_name) :=
          Worker.get_tag existing_delegate_worker in
        new_delegate ← Worker.set_name_internal new_delegate
                         existing_delegate_worker_name false;
        new_delegate ←
          (if (0 <? length existing_delegate_worker_tag_data)%nat
           then Worker.set_tag_internal new_delegate
                  existing_delegate_worker_tag_name
                  (length existing_delegate_worker_tag_data)
                  existing_delegate_worker_tag_data false
           else mret new_delegate);
        mret (with_delegate_workers p
                (<[pred (length workers) := new_delegate]> workers))
    end
  else mret (with_delegate_workers p workers).

Definition remove_delegate (p : t) (in_vk_object_handle : vk_handle) : M t :=
  anvil_assert (worker_is_null p);;
  let worker_iterator := find_worker in_vk_object_handle (m_delegate_workers p) in
  anvil_assert (negb (worker_iterator =? length (m_delegate_workers p))%nat);;
  mret (with_delegate_workers p (delete worker_iterator (m_delegate_workers p))).

Definition set_name (p : t) (in_object_name : string) : M t :=
  match m_worker_ptr p with
  | Some worker =>
      worker ← Worker.set_name_internal worker in_object_name false;
      mret (with_worker p worker)
  | None =>
      workers ← mapM (λ worker, Worker.set_name_internal worker in_object_name false)
                     (m_delegate_workers p);
      mret (with_delegate_workers p workers)
  end.

Definition set_name_formatted (p : t) (in_format : string)
    (args : list printf_arg) : M t :=
  let buffer := vsnprintf vsnprintf_text 1024 in_format args in
  match m_worker_ptr p with
  | Some worker =>
      worker ← Worker.set_name_internal worker buffer false;
      mret (with_worker p worker)
  | None =>
      workers ← mapM (λ worker, Worker.set_name_internal worker buffer false)
                     (m_delegate_workers p);
      mret (with_delegate_workers p workers)
  end.

Definition set_tag (p : t) (in_tag_name : N) (in_tag_size : nat)
    (in_tag_ptr : tag_bytes) : M t :=
  match m_worker_ptr p with
  | Some worker =>
      worker ← Worker.set_tag_internal worker in_tag_name in_tag_size in_tag_ptr false;
      mret (with_worker p worker)
  | None =>
      workers ← mapM (λ worker, Worker.set_tag_internal worker in_tag_name
                                   in_tag_size in_tag_ptr false)
                     (m_delegate_workers p);
      mret (with_delegate_workers p workers)
  end.

(** [anvil_assert(m_worker_ptr != nullptr)], then the call through the pointer. *)
Definition set_vk_handle (p : t) (in_vk_object_handle : vk_handle) : M t :=
  match m_worker_ptr p with
  | None => λ _, AssertionFailure
  | Some worker =>
      worker ← Worker.set_vk_handle_internal worker in_vk_object_handle;
      mret (with_worker p worker)
  end.

(** The operations a wrapper can invoke on its provider once constructed. *)
Inductive op : Type :=
| op_add_delegate (h : vk_handle)
| op_remove_delegate (h : vk_handle)
| op_set_name (name : string)
| op_set_name_formatted (format : string) (args : list printf_arg)
| op_set_tag (tag_name : N) (tag_size : nat) (tag_ptr : tag_bytes)
| op_set_vk_handle (h : vk_handle).

Definition run_op (o : op) (p : t) : M t :=
  match o with
  | op_add_delegate h => add_delegate p h
  | op_remove_delegate h => remove_delegate p h
  | op_set_name name => set_name p name
  | op_set_name_formatted format args => set_name_formatted p format args
  | op_set_tag tag_name tag_size tag_ptr => set_tag p tag_name tag_size tag_ptr
  | op_set_vk_handle h => set_vk_handle p h
  end.

(** The states a provider constructed with the given flag goes through: each
    operation runs in whatever environment it finds and has to return. *)
Inductive reachable (in_use_delegate_workers : bool) : t → Prop :=
| reachable_new device_ptr vk_object_type w p w' :
    new device_ptr vk_object_type in_use_delegate_workers w = Done p w' →
    reachable in_use_delegate_workers p
| reachable_step p o w p' w' :
    reachable in_use_delegate_workers p →
    run_op o p w = Done p' w' →
    reachable in_use_delegate_workers p'.

End Build.

End DebugMarkerSupportProvider.

Module Provider := DebugMarkerSupportProvider.

(** * Vocabulary of the statements

    Readings of the operations above as a cache update and a list of driver
    calls, each tied to the operation by a lemma below, and the values the
    sample runs use. *)

(** The environment once the given calls, in order, have been answered by
    the driver and logged. *)
Definition emit (w : World) (calls : list DriverCall) : World :=
  mkWorld (devices w) (driver w)
          (driver_log w ++ map (λ c, (c, driver w c)) calls).

Definition name_is_cached (w : Worker.t) (name : string) (force : bool) : bool :=
  bool_decide (name = Worker.m_object_name w) && negb force.

Definition name_update (name : string) (force : bool) (w : Worker.t) : Worker.t :=
  if name_is_cached w name force then w else Worker.with_name w name.

Definition name_calls (name : string) (force : bool) (w : Worker.t) : list DriverCall :=
  if name_is_cached w name force then []
  else if Worker.can_call_driver w
       then [nameObject (Worker.m_device_ptr w) (Worker.m_vk_object_type w)
                        (Worker.m_vk_object_handle w) name]
       else [].

Definition tag_is_cached (w : Worker.t) (tag_name : N) (size : nat)
    (ptr : tag_bytes) (force : bool) : bool :=
  bool_decide (tag_name = Worker.m_object_tag_name w) &&
  bool_decide (size = length (Worker.m_object_tag_data w)) &&
  bool_decide (take size ptr = Worker.m_object_tag_data w) &&
  negb force.

Definition tag_update (tag_name : N) (size : nat) (ptr : tag_bytes)
    (force : bool) (w : Worker.t) : Worker.t :=
  if tag_is_cached w tag_name size ptr force then w
  else Worker.with_tag w tag_name (take size ptr).

Definition tag_calls (tag_name : N) (size : nat) (ptr : tag_bytes)
    (force : bool) (w : Worker.t) : list DriverCall :=
  if tag_is_cached w tag_name size ptr force then []
  else if Worker.can_call_driver w
       then [tagObject (Worker.m_device_ptr w) (Worker.m_vk_object_type w)
                       (Worker.m_vk_object_handle w) tag_name size (take size ptr)]
       else [].

(** [k] calls in a row of set_name_internal with the same name, not forced. *)
Fixpoint set_name_repeatedly (k : nat) (w : Worker.t) (n : string) : M Worker.t :=
  match k with
  | O => mret w
  | S k' =>
      w' ← Worker.set_name_internal w n false;
      set_name_repeatedly k' w' n
  end.

Definition bound_to (h : vk_handle) (w : Worker.t) : Prop :=
  Worker.get_vk_handle_internal w = h.

(** The device a weak pointer yields in an environment, if it is alive. *)
Definition alive (world : World) (p : weak_ptr) : option BaseDevice :=
  p ≫= λ d, devices world !! d.

(** The worker add_delegate constructs and binds to the handle. *)
Definition fresh_delegate (p : Provider.t) (device : BaseDevice) (h : vk_handle) : Worker.t :=
  Worker.mk (Provider.m_device_ptr p) (is_ext_debug_marker_available device)
            EmptyString [] 0%N h (Provider.m_vk_object_type p).

(** The tag of an existing delegate handed to a new one: only when the
    existing delegate has tag bytes. *)
Definition tag_copy (existing new : Worker.t) : Worker.t :=
  if 0 <? length (Worker.m_object_tag_data existing)
  then tag_update (Worker.m_object_tag_name existing)
                  (length (Worker.m_object_tag_data existing))
                  (Worker.m_object_tag_data existing) false new
  else new.

Definition tag_copy_calls (existing new : Worker.t) : list DriverCall :=
  if 0 <? length (Worker.m_object_tag_data existing)
  then tag_calls (Worker.m_object_tag_name existing)
                 (length (Worker.m_object_tag_data existing))
                 (Worker.m_object_tag_data existing) false new
  else [].

(** The delegate add_delegate appends, and the driver calls it makes. *)
Definition joining_delegate (p : Provider.t) (device : BaseDevice) (h : vk_handle) : Worker.t :=
  match Provider.m_delegate_workers p with
  | [] => fresh_delegate p device h
  | existing :: _ =>
      tag_copy existing
        (name_update (Worker.get_name existing) false (fresh_delegate p device h))
  end.

Definition joining_calls (p : Provider.t) (device : BaseDevice) (h : vk_handle) : list DriverCall :=
  match Provider.m_delegate_workers p with
  | [] => []
  | existing :: _ =>
      name_calls (Worker.get_name existing) false (fresh_delegate p device h) ++
      tag_copy_calls existing
        (name_update (Worker.get_name existing) false (fresh_delegate p device h))
  end.

Definition duplicate_check (h : vk_handle) (delegate : Worker.t) : M unit :=
  anvil_assert (negb (Worker.get_vk_handle_internal delegate =? h)%N).

Definition duplicate_checks (debug : bool) (h : vk_handle) (ws : list Worker.t) : M unit :=
  if debug then mapM (duplicate_check h) ws ≫= λ _, mret () else mret ().

(** What the construction flag fixes for good. *)
Definition mode_invariant (use_delegates : bool) (p : Provider.t) : Prop :=
  if use_delegates then Provider.m_worker_ptr p = None
  else is_Some (Provider.m_worker_ptr p) ∧ Provider.m_delegate_workers p = [].

(** One live device that supports the extension, a driver that always
    succeeds, nothing logged yet. *)
Definition sample_device : BaseDevice := mkBaseDevice true.

Definition sample_world : World :=
  mkWorld {[ 0 := sample_device ]} (λ _, VK_SUCCESS) [].

(** A driver that refuses every call. *)
Definition failing_world : World :=
  mkWorld {[ 0 := sample_device ]} (λ _, VK_ERROR (-1)) [].

(** A provider as the constructor leaves it with delegate workers requested. *)
Definition empty_delegate_set : Provider.t :=
  Provider.mk [] (Some 0) 5%N None.

(** A provider as the constructor leaves it without delegate workers. *)
Definition single_handle : Provider.t :=
  Provider.mk [] None 0%N (Some (Worker.mk (Some 0) true EmptyString [] 0%N VK_NULL_HANDLE 5%N)).

(** Delegates of the provider above after add_delegate(11), set_tag(42, 0, _)
    and add_delegate(12). *)
Definition tag_id_only_worker : Worker.t :=
  Worker.mk (Some 0) true EmptyString [] 42%N 11%N 5%N.

Definition untagged_worker : Worker.t :=
  Worker.mk (Some 0) true EmptyString [] 0%N 12%N 5%N.

Definition tag_id_only_provider : Provider.t :=
  Provider.mk [tag_id_only_worker] (Some 0) 5%N None.

(** Delegates after add_delegate(11), set_name("Texture A"),
    set_tag(42, 4, "abcd") and add_delegate(12). *)
Definition texture_worker (h : vk_handle) : Worker.t :=
  Worker.mk (Some 0) true "Texture A" ["a"; "b"; "c"; "d"]%char 42%N h 5%N.

Definition texture_provider : Provider.t :=
  Provider.mk [texture_worker 11%N] (Some 0) 5%N None.

Definition two_textures : Provider.t :=
  Provider.mk [texture_worker 11%N; texture_worker 12%N] (Some 0) 5%N None.

(** ** Vocabulary of the further properties *)

(** The handles a vector of workers is bound to, in order. *)
Definition handles (ws : list Worker.t) : list vk_handle :=
  map Worker.get_vk_handle_internal ws.

(** The workers the setters act on: the single worker when the worker pointer
    is non-null, the delegates otherwise. *)
Definition workers_of (p : Provider.t) : list Worker.t :=
  match Provider.m_worker_ptr p with
  | Some worker => [worker]
  | None => Provider.m_delegate_workers p
  end.

(** The handle a driver call names or tags. *)
Definition call_handle (c : DriverCall) : vk_handle :=
  match c with
  | nameObject _ _ h _ => h
  | tagObject _ _ h _ _ _ => h
  end.

(** What a worker's tag amounts to: its bytes, and its id when there are
    bytes. *)
Definition tag_label (w : Worker.t) : tag_bytes * N :=
  let '(data, tag_name) := Worker.get_tag w in
  (data, match data with [] => 0%N | _ :: _ => tag_name end).

(** What holds of the delegates of a provider constructed with delegate
    workers: no worker pointer; under _DEBUG no handle bound twice; one name
    and one tag label for all; each delegate built from the provider's device
    pointer and object type; no delegate bound to the null handle. *)
Definition delegates_wf (debug : bool) (p : Provider.t) : Prop :=
  Provider.m_worker_ptr p = None ∧
  (debug = true → NoDup (handles (Provider.m_delegate_workers p))) ∧
  (∃ name label,
      Forall (λ d, Worker.get_name d = name ∧ tag_label d = label)
             (Provider.m_delegate_workers p)) ∧
  Forall (λ d, Worker.m_device_ptr d = Provider.m_device_ptr p ∧
               Worker.m_vk_object_type d = Provider.m_vk_object_type p)
         (Provider.m_delegate_workers p) ∧
  Forall (λ d, ¬ bound_to VK_NULL_HANDLE d) (Provider.m_delegate_workers p).

(** Two states of a provider that bind the same handles in the same order, in
    the same mode, with the same device pointer and object type. *)
Definition same_bindings (p p' : Provider.t) : Prop :=
  handles (workers_of p') = handles (workers_of p) ∧
  Provider.worker_is_null p' = Provider.worker_is_null p ∧
  Provider.m_device_ptr p' = Provider.m_device_ptr p ∧
  Provider.m_vk_object_type p' = Provider.m_vk_object_type p.

(** A naming call with the given name; a tagging call with the given tag. *)
Definition is_name_call (n : string) (c : DriverCall) : Prop :=
  match c with
  | nameObject _ _ _ name => name = n
  | tagObject _ _ _ _ _ _ => False
  end.

Definition is_tag_call (tag_name : N) (data : tag_bytes) (c : DriverCall) : Prop :=
  match c with
  | nameObject _ _ _ _ => False
  | tagObject _ _ _ tagId _ tag => tagId = tag_name ∧ tag = data
  end.

(** What a setter of the provider leaves behind when each worker it reaches is
    updated by [upd], and the calls it makes when each issues [calls]. *)
Definition fan_out (upd : Worker.t → Worker.t) (p : Provider.t) : Provider.t :=
  match Provider.m_worker_ptr p with
  | Some worker => Provider.with_worker p (upd worker)
  | None =>
      Provider.with_delegate_workers p (map upd (Provider.m_delegate_workers p))
  end.

Definition fan_out_calls (calls : Worker.t → list DriverCall) (p : Provider.t) : list DriverCall :=
  match Provider.m_worker_ptr p with
  | Some worker => calls worker
  | None => concat (map calls (Provider.m_delegate_workers p))
  end.

(** ** Use within the documented contract *)




(** * Properties *)

(** ** The environment after a list of driver calls *)

Lemma emit_nil w : emit w [] = w.
Proof. destruct w as [ds dr lg]. unfold emit; simpl. by rewrite app_nil_r. Qed.

Lemma emit_app w cs1 cs2 : emit (emit w cs1) cs2 = emit w (cs1 ++ cs2).
Proof. unfold emit; simpl. by rewrite map_app, app_assoc. Qed.

Lemma driver_call_emit c w : driver_call c w = Done (driver w c) (emit w [c]).
Proof. reflexivity. Qed.

Lemma bind_run {A B} (m : M A) (f : A → M B) (w : World) :
  (m ≫= f) w
  = match m w with
    | Done a w' => f a w'
    | AssertionFailure => AssertionFailure
    | OutOfRange => OutOfRange
    end.
Proof. reflexivity. Qed.

Lemma ret_run {A} (a : A) (w : World) : (mret a : M A) w = Done a w.
Proof. reflexivity. Qed.

(** A loop over a vector whose body, on every element, returns a value that
    does not depend on the environment and issues a fixed list of calls. *)
Lemma mapM_emit {A B} (f : A → M B) (upd : A → B) (calls : A → list DriverCall) :
  (∀ a w, f a w = Done (upd a) (emit w (calls a))) →
  ∀ l w, mapM f l w = Done (map upd l) (emit w (concat (map calls l))).
Proof.
  intros Hf l. induction l as [|a l IH]; intros w; simpl.
  - by rewrite emit_nil.
  - rewrite bind_run, Hf. cbv beta iota.
    rewrite bind_run, IH. cbv beta iota.
    by rewrite ret_run, emit_app.
Qed.

(** ** The worker's setters as a cache update and a list of calls *)

Lemma set_name_internal_emit w name force world :
  Worker.set_name_internal w name force world
  = Done (name_update name force w) (emit world (name_calls name force w)).
Proof.
  unfold Worker.set_name_internal, name_update, name_calls, name_is_cached.
  destruct (bool_decide (name = Worker.m_object_name w) && negb force).
  - rewrite ?ret_run. by rewrite emit_nil.
  - change (Worker.can_call_driver (Worker.with_name w name))
      with (Worker.can_call_driver w).
    destruct (Worker.can_call_driver w); [reflexivity|].
    rewrite ?ret_run. by rewrite emit_nil.
Qed.

Lemma set_tag_internal_emit w tag_name size ptr force world :
  Worker.set_tag_internal w tag_name size ptr force world
  = Done (tag_update tag_name size ptr force w)
         (emit world (tag_calls tag_name size ptr force w)).
Proof.
  unfold Worker.set_tag_internal, tag_update, tag_calls, tag_is_cached.
  destruct (bool_decide (tag_name = Worker.m_object_tag_name w) &&
            bool_decide (size = length (Worker.m_object_tag_data w)) &&
            bool_decide (take size ptr = Worker.m_object_tag_data w) &&
            negb force).
  - rewrite ?ret_run. by rewrite emit_nil.
  - change (Worker.can_call_driver (Worker.with_tag w tag_name (take size ptr)))
      with (Worker.can_call_driver w).
    destruct (Worker.can_call_driver w); [reflexivity|].
    rewrite ?ret_run. by rewrite emit_nil.
Qed.

Lemma name_update_name name force w :
  Worker.get_name (name_update name force w) = name.
Proof.
  unfold name_update, name_is_cached.
  destruct (bool_decide_reflect (name = Worker.m_object_name w)) as [->|]; simpl;
    [destruct force|]; reflexivity.
Qed.

(** C3: after set_name_internal(n), with or without force, get_name returns
    exactly n, whether or not the extension is available and whatever status
    the driver answers; the call always returns. *)
Theorem set_name_then_get_name :
  ∀ (w : Worker.t) (n : string) (force : bool) (world : World),
    ∃ w' world',
      Worker.set_name_internal w n force world = Done w' world' ∧
      Worker.get_name w' = n.
Proof.
  intros w n force world. rewrite set_name_internal_emit.
  eexists _, _. split; [reflexivity|]. apply name_update_name.
Qed.

Lemma set_name_internal_cached w n world :
  Worker.m_object_name w = n →
  Worker.set_name_internal w n false world = Done w world.
Proof.
  intros <-. unfold Worker.set_name_internal.
  by rewrite bool_decide_eq_true_2.
Qed.

Lemma set_name_repeatedly_cached k w n world :
  Worker.m_object_name w = n →
  set_name_repeatedly k w n world = Done w world.
Proof.
  intros Hn. induction k as [|k IH]; simpl; [reflexivity|].
  rewrite bind_run. by rewrite set_name_internal_cached.
Qed.

Lemma name_calls_length name force w : length (name_calls name force w) ≤ 1.
Proof.
  unfold name_calls.
  destruct (name_is_cached w name force); simpl; [lia|].
  destruct (Worker.can_call_driver w); simpl; lia.
Qed.

(** C4: however many times set_name_internal(n) is repeated without force,
    the driver is called at most once over the whole run; and on a worker
    whose cached name is already n the call changes neither the worker nor
    the environment. *)
Theorem set_name_repeated_calls_driver_at_most_once :
  ∀ (w : Worker.t) (n : string) (k : nat) (world : World),
    (∃ w' calls,
        set_name_repeatedly k w n world = Done w' (emit world calls) ∧
        length calls ≤ 1) ∧
    (Worker.m_object_name w = n →
     Worker.set_name_internal w n false world = Done w world).
Proof.
  intros w n k world. split; [|apply set_name_internal_cached].
  destruct k as [|k]; simpl.
  - exists w, []. rewrite emit_nil. split; [reflexivity|simpl; lia].
  - rewrite bind_run. rewrite set_name_internal_emit.
    rewrite set_name_repeatedly_cached by apply name_update_name.
    eexists _, _. split; [reflexivity|apply name_calls_length].
Qed.

(** ** remove_delegate *)

Lemma find_worker_none h ws :
  Forall (λ d, ¬ bound_to h d) ws → Provider.find_worker h ws = length ws.
Proof.
  induction 1 as [|d ws Hd _ IH]; simpl; [reflexivity|].
  destruct (N.eqb_spec (Worker.get_vk_handle_internal d) h) as [Heq|_].
  - by destruct Hd.
  - by rewrite IH.
Qed.

Lemma find_worker_first h before w after :
  bound_to h w → Forall (λ d, ¬ bound_to h d) before →
  Provider.find_worker h (before ++ w :: after) = length before.
Proof.
  intros Hw. induction 1 as [|d ws Hd _ IH]; simpl.
  - by rewrite (proj2 (N.eqb_eq _ _) Hw).
  - destruct (N.eqb_spec (Worker.get_vk_handle_internal d) h) as [Heq|_].
    + by destruct Hd.
    + by rewrite IH.
Qed.

Lemma first_bound_split h ws :
  (∃ d, d ∈ ws ∧ bound_to h d) →
  ∃ before w after,
    ws = before ++ w :: after ∧ bound_to h w ∧
    Forall (λ d, ¬ bound_to h d) before.
Proof.
  induction ws as [|d ws IH]; intros (x & Hin & Hx).
  - by apply elem_of_nil in Hin.
  - destruct (decide (Worker.get_vk_handle_internal d = h)) as [Hd|Hd].
    + exists [], d, ws. repeat split; [done|constructor].
    + apply elem_of_cons in Hin as [->|Hin]; [done|].
      destruct IH as (before & w & after & -> & Hw & Hbefore); [by eauto|].
      exists (d :: before), w, after. repeat split; [done|].
      by constructor.
Qed.

(** C9: in DelegateSet mode remove_delegate(h) erases the first delegate
    bound to h and nothing else: the delegates in front of it and behind it
    stay as they are and in their order, and the environment is untouched.
    When some delegate is bound to h such a first one exists; when none is,
    the operation ends on the assertion failure path. *)
Theorem remove_delegate_erases_first_match :
  ∀ (p : Provider.t) (h : vk_handle) (world : World),
    Provider.m_worker_ptr p = None →
    (∀ before w after,
        Provider.m_delegate_workers p = before ++ w :: after →
        bound_to h w →
        Forall (λ d, ¬ bound_to h d) before →
        Provider.remove_delegate p h world
        = Done (Provider.with_delegate_workers p (before ++ after)) world) ∧
    ((∃ d, d ∈ Provider.m_delegate_workers p ∧ bound_to h d) →
     ∃ before w after,
       Provider.m_delegate_workers p = before ++ w :: after ∧
       bound_to h w ∧ Forall (λ d, ¬ bound_to h d) before) ∧
    (Forall (λ d, ¬ bound_to h d) (Provider.m_delegate_workers p) →
     Provider.remove_delegate p h world = AssertionFailure).
Proof.
  intros p h world Hmode. split; [|split].
  - intros before w after Hws Hw Hbefore.
    unfold Provider.remove_delegate, Provider.worker_is_null.
    rewrite Hmode, Hws. rewrite !bind_run; simpl.
    rewrite find_worker_first by done.
    rewrite length_app; simpl.
    destruct (Nat.eqb_spec (length before) (length before + S (length after)));
      [lia|simpl].
    by rewrite delete_middle.
  - apply first_bound_split.
  - intros Hnone.
    unfold Provider.remove_delegate, Provider.worker_is_null.
    rewrite Hmode. rewrite !bind_run; simpl.
    rewrite find_worker_none by done.
    by rewrite Nat.eqb_refl.
Qed.

(** ** add_delegate *)

Lemma duplicate_check_one h d world :
  duplicate_check h d world
  = if (Worker.get_vk_handle_internal d =? h)%N then AssertionFailure
    else Done () world.
Proof.
  unfold duplicate_check, anvil_assert.
  by destruct (Worker.get_vk_handle_internal d =? h)%N.
Qed.

Lemma duplicate_check_pass h ws world :
  Forall (λ d, ¬ bound_to h d) ws →
  mapM (duplicate_check h) ws world = Done (map (λ _, ()) ws) world.
Proof.
  induction 1 as [|d ws Hd _ IH]; simpl; [reflexivity|].
  rewrite bind_run. rewrite duplicate_check_one.
  destruct (N.eqb_spec (Worker.get_vk_handle_internal d) h) as [Heq|_];
    [by destruct Hd|].
  cbv beta iota. by rewrite bind_run, IH.
Qed.

Lemma duplicate_check_fail h ws world :
  (∃ d, d ∈ ws ∧ bound_to h d) →
  mapM (duplicate_check h) ws world = AssertionFailure.
Proof.
  intros Hex. apply first_bound_split in Hex
    as (before & w & after & -> & Hw & Hbefore).
  induction Hbefore as [|d ws Hd _ IH]; simpl;
    rewrite bind_run; rewrite duplicate_check_one.
  - by rewrite (proj2 (N.eqb_eq _ _) Hw).
  - destruct (N.eqb_spec (Worker.get_vk_handle_internal d) h) as [Heq|_];
      [by destruct Hd|].
    cbv beta iota. simpl in IH. by rewrite bind_run, IH.
Qed.

Lemma insert_last {A} (l : list A) (x y : A) :
  <[pred (length (l ++ [x])) := y]> (l ++ [x]) = l ++ [y].
Proof.
  rewrite length_app; simpl.
  replace (pred (length l + 1)) with (length l + 0) by lia.
  by rewrite insert_app_r.
Qed.

Lemma add_delegate_wrong_mode debug p h world :
  Provider.m_worker_ptr p ≠ None →
  Provider.add_delegate debug p h world = AssertionFailure.
Proof.
  intros Hmode. unfold Provider.add_delegate, Provider.worker_is_null.
  by destruct (Provider.m_worker_ptr p).
Qed.

Lemma duplicate_checks_pass debug h ws world :
  (debug = true → Forall (λ d, ¬ bound_to h d) ws) →
  duplicate_checks debug h ws world = Done () world.
Proof.
  intros Hdup. unfold duplicate_checks. destruct debug; [|reflexivity].
  by rewrite bind_run, duplicate_check_pass by auto.
Qed.

Lemma duplicate_checks_fail h ws world :
  (∃ d, d ∈ ws ∧ bound_to h d) →
  duplicate_checks true h ws world = AssertionFailure.
Proof.
  intros Hdup. unfold duplicate_checks.
  by rewrite bind_run, duplicate_check_fail.
Qed.

Lemma add_delegate_run debug p h world :
  Provider.m_worker_ptr p = None →
  Provider.add_delegate debug p h world
  = match duplicate_checks debug h (Provider.m_delegate_workers p) world with
    | Done _ world' =>
        match alive world' (Provider.m_device_ptr p) with
        | None => AssertionFailure
        | Some device =>
            if (h =? VK_NULL_HANDLE)%N then AssertionFailure
            else
              Done (Provider.with_delegate_workers p
                      (Provider.m_delegate_workers p ++ [joining_delegate p device h]))
                   (emit world' (joining_calls p device h))
        end
    | AssertionFailure => AssertionFailure
    | OutOfRange => OutOfRange
    end.
Proof.
  intros Hmode.
  unfold Provider.add_delegate, Provider.worker_is_null. rewrite Hmode.
  rewrite bind_run. simpl. rewrite bind_run.
  fold (duplicate_check h).
  fold (duplicate_checks debug h (Provider.m_delegate_workers p)).
  destruct (duplicate_checks debug h (Provider.m_delegate_workers p) world)
    as [[] world'| |]; [|reflexivity..].
  rewrite bind_run. unfold Worker.new at 1. rewrite bind_run.
  unfold lock. cbv beta iota. fold (alive world' (Provider.m_device_ptr p)).
  destruct (alive world' (Provider.m_device_ptr p)) as [device|]; [|reflexivity].
  rewrite ret_run. cbv beta iota.
  rewrite bind_run. unfold Worker.set_vk_handle_internal at 1.
  rewrite bind_run. unfold anvil_assert.
  cbn [Worker.m_vk_object_handle]. rewrite N.eqb_refl. cbn [negb].
  destruct (h =? VK_NULL_HANDLE)%N; [reflexivity|]. cbv beta iota.
  rewrite ret_run. cbv beta iota.
  change (Worker.with_vk_handle _ h) with (fresh_delegate p device h).
  unfold joining_delegate, joining_calls.
  destruct (Provider.m_delegate_workers p) as [|existing rest] eqn:Hws.
  - simpl. by rewrite ret_run, emit_nil.
  - replace (1 <? length ((existing :: rest) ++ [fresh_delegate p device h]))
      with true
      by (symmetry; apply Nat.ltb_lt; rewrite length_app; simpl; lia).
    change (((existing :: rest) ++ [fresh_delegate p device h]) !! 0)
      with (Some existing).
    cbv beta iota. unfold Worker.get_tag.
    rewrite bind_run, set_name_internal_emit. cbv beta iota.
    rewrite bind_run.
    unfold tag_copy, tag_copy_calls.
    destruct (0 <? length (Worker.m_object_tag_data existing)).
    + rewrite set_tag_internal_emit. cbv beta iota.
      by rewrite ret_run, insert_last, emit_app.
    + rewrite ret_run. cbv beta iota.
      by rewrite ret_run, insert_last, app_nil_r.
Qed.

Lemma add_delegate_duplicate p h world :
  (∃ d, d ∈ Provider.m_delegate_workers p ∧ bound_to h d) →
  Provider.add_delegate true p h world = AssertionFailure.
Proof.
  intros Hdup.
  destruct (Provider.m_worker_ptr p) eqn:Hmode.
  - apply add_delegate_wrong_mode. by rewrite Hmode.
  - by rewrite add_delegate_run, duplicate_checks_fail.
Qed.

Lemma add_delegate_expired debug p h world :
  Provider.m_worker_ptr p = None →
  (debug = true → Forall (λ d, ¬ bound_to h d) (Provider.m_delegate_workers p)) →
  alive world (Provider.m_device_ptr p) = None →
  Provider.add_delegate debug p h world = AssertionFailure.
Proof.
  intros Hmode Hdup Hdev.
  by rewrite add_delegate_run, duplicate_checks_pass, Hdev.
Qed.

Lemma add_delegate_done debug p h world device :
  Provider.m_worker_ptr p = None →
  h ≠ VK_NULL_HANDLE →
  (debug = true → Forall (λ d, ¬ bound_to h d) (Provider.m_delegate_workers p)) →
  alive world (Provider.m_device_ptr p) = Some device →
  Provider.add_delegate debug p h world
  = Done (Provider.with_delegate_workers p
            (Provider.m_delegate_workers p ++ [joining_delegate p device h]))
         (emit world (joining_calls p device h)).
Proof.
  intros Hmode Hh Hdup Hdev.
  rewrite add_delegate_run, duplicate_checks_pass, Hdev by done.
  by rewrite (proj2 (N.eqb_neq h VK_NULL_HANDLE)).
Qed.

Lemma duplicate_check_outcome h ws world :
  mapM (duplicate_check h) ws world = Done (map (λ _, ()) ws) world ∨
  mapM (duplicate_check h) ws world = AssertionFailure.
Proof.
  induction ws as [|d ws IH]; simpl; [by left|].
  rewrite bind_run, duplicate_check_one.
  destruct (Worker.get_vk_handle_internal d =? h)%N; [by right|].
  cbv beta iota. rewrite bind_run.
  destruct IH as [-> | ->]; [by left|by right].
Qed.

(** The null handle never gets past add_delegate. *)
Lemma add_delegate_null debug p world :
  Provider.add_delegate debug p VK_NULL_HANDLE world = AssertionFailure.
Proof.
  destruct (Provider.m_worker_ptr p) eqn:Hmode.
  - apply add_delegate_wrong_mode. by rewrite Hmode.
  - rewrite add_delegate_run by done. unfold duplicate_checks.
    destruct debug.
    + rewrite bind_run.
      destruct (duplicate_check_outcome VK_NULL_HANDLE
                  (Provider.m_delegate_workers p) world)
        as [-> | ->]; [|reflexivity].
      cbv beta iota. rewrite ret_run.
      by destruct (alive world (Provider.m_device_ptr p)).
    + rewrite ret_run.
      by destruct (alive world (Provider.m_device_ptr p)).
Qed.

(** Whatever add_delegate returns, it returns in DelegateSet mode and only
    the vector of delegates has changed. *)
Lemma add_delegate_shape debug p h world p' world' :
  Provider.add_delegate debug p h world = Done p' world' →
  Provider.m_worker_ptr p = None ∧
  ∃ ws, p' = Provider.with_delegate_workers p ws.
Proof.
  intros Hrun.
  destruct (Provider.m_worker_ptr p) eqn:Hmode.
  - rewrite add_delegate_wrong_mode in Hrun by (by rewrite Hmode). discriminate.
  - split; [reflexivity|]. rewrite add_delegate_run in Hrun by done.
    destruct (duplicate_checks _ _ _ _) as [[] w1| |]; try discriminate.
    destruct (alive _ _); [|discriminate].
    destruct (h =? VK_NULL_HANDLE)%N; [discriminate|].
    injection Hrun as <- _. eauto.
Qed.

Lemma tag_update_tag tag_name size ptr force w :
  Worker.get_tag (tag_update tag_name size ptr force w) = (take size ptr, tag_name).
Proof.
  unfold tag_update, tag_is_cached, Worker.get_tag.
  destruct (bool_decide_reflect (tag_name = Worker.m_object_tag_name w)) as [->|];
    [|reflexivity].
  destruct (bool_decide (size = length (Worker.m_object_tag_data w)));
    [|reflexivity].
  destruct (bool_decide_reflect (take size ptr = Worker.m_object_tag_data w))
    as [->|]; [|reflexivity].
  by destruct force.
Qed.

Lemma name_update_tag name force w :
  Worker.get_tag (name_update name force w) = Worker.get_tag w.
Proof. unfold name_update. by destruct (name_is_cached w name force). Qed.

Lemma name_update_handle name force w :
  Worker.get_vk_handle_internal (name_update name force w)
  = Worker.get_vk_handle_internal w.
Proof. unfold name_update. by destruct (name_is_cached w name force). Qed.

Lemma tag_update_name tag_name size ptr force w :
  Worker.get_name (tag_update tag_name size ptr force w) = Worker.get_name w.
Proof.
  unfold tag_update. by destruct (tag_is_cached w tag_name size ptr force).
Qed.

Lemma tag_update_handle tag_name size ptr force w :
  Worker.get_vk_handle_internal (tag_update tag_name size ptr force w)
  = Worker.get_vk_handle_internal w.
Proof.
  unfold tag_update. by destruct (tag_is_cached w tag_name size ptr force).
Qed.

Lemma tag_copy_name existing new :
  Worker.get_name (tag_copy existing new) = Worker.get_name new.
Proof.
  unfold tag_copy. destruct (0 <? _); [apply tag_update_name|reflexivity].
Qed.

Lemma tag_copy_handle existing new :
  Worker.get_vk_handle_internal (tag_copy existing new)
  = Worker.get_vk_handle_internal new.
Proof.
  unfold tag_copy. destruct (0 <? _); [apply tag_update_handle|reflexivity].
Qed.

Lemma tag_copy_some existing new :
  Worker.m_object_tag_data existing ≠ [] →
  Worker.get_tag (tag_copy existing new) = Worker.get_tag existing.
Proof.
  intros Hdata. unfold tag_copy.
  destruct (Nat.ltb_spec 0 (length (Worker.m_object_tag_data existing))) as [_|Hlen].
  - rewrite tag_update_tag. unfold Worker.get_tag. by rewrite firstn_all.
  - destruct (Worker.m_object_tag_data existing); [done|simpl in Hlen; lia].
Qed.

Lemma tag_copy_none existing new :
  Worker.m_object_tag_data existing = [] →
  tag_copy existing new = new.
Proof. intros Hdata. unfold tag_copy. by rewrite Hdata. Qed.


(** C2: add_delegate(handle) ends on the assertion failure path whenever
    handle is null, in either build, and under _DEBUG whenever a current
    delegate is bound to handle already. These are the only checks on the
    handle: in DelegateSet mode, with the device alive, a non-null handle that
    is not a duplicate under _DEBUG is accepted and bound to the worker
    appended. *)
Theorem add_delegate_assertions :
  ∀ (debug : bool) (p : Provider.t) (h : vk_handle) (world : World),
    (h = VK_NULL_HANDLE →
     Provider.add_delegate debug p h world = AssertionFailure) ∧
    (debug = true →
     (∃ d, d ∈ Provider.m_delegate_workers p ∧ bound_to h d) →
     Provider.add_delegate debug p h world = AssertionFailure) ∧
    (Provider.m_worker_ptr p = None →
     h ≠ VK_NULL_HANDLE →
     (debug = true → Forall (λ d, ¬ bound_to h d) (Provider.m_delegate_workers p)) →
     ∀ device, alive world (Provider.m_device_ptr p) = Some device →
     ∃ new world',
       Provider.add_delegate debug p h world
       = Done (Provider.with_delegate_workers p
                 (Provider.m_delegate_workers p ++ [new])) world' ∧
       Worker.get_vk_handle_internal new = h).
Proof.
  intros debug p h world. split; [|split].
  - intros ->. apply add_delegate_null.
  - intros -> Hdup. by apply add_delegate_duplicate.
  - intros Hmode Hh Hdup device Hdev.
    eexists _, _. split; [by apply add_delegate_done|].
    unfold joining_delegate.
    destruct (Provider.m_delegate_workers p); [reflexivity|].
    by rewrite tag_copy_handle, name_update_handle.
Qed.

(** ** Fan-out equations *)

Lemma set_name_run p n world :
  Provider.set_name p n world =
  match Provider.m_worker_ptr p with
  | Some worker =>
      Done (Provider.with_worker p (name_update n false worker))
           (emit world (name_calls n false worker))
  | None =>
      Done (Provider.with_delegate_workers p
              (map (name_update n false) (Provider.m_delegate_workers p)))
           (emit world
              (concat (map (name_calls n false) (Provider.m_delegate_workers p))))
  end.
Proof.
  unfold Provider.set_name.
  destruct (Provider.m_worker_ptr p) as [worker|]; rewrite bind_run.
  - by rewrite set_name_internal_emit.
  - by rewrite (mapM_emit _ (name_update n false) (name_calls n false))
      by (intros; apply set_name_internal_emit).
Qed.

Lemma set_tag_run p tag_name size ptr world :
  Provider.set_tag p tag_name size ptr world =
  match Provider.m_worker_ptr p with
  | Some worker =>
      Done (Provider.with_worker p (tag_update tag_name size ptr false worker))
           (emit world (tag_calls tag_name size ptr false worker))
  | None =>
      Done (Provider.with_delegate_workers p
              (map (tag_update tag_name size ptr false)
                   (Provider.m_delegate_workers p)))
           (emit world
              (concat (map (tag_calls tag_name size ptr false)
                           (Provider.m_delegate_workers p))))
  end.
Proof.
  unfold Provider.set_tag.
  destruct (Provider.m_worker_ptr p) as [worker|]; rewrite bind_run.
  - by rewrite set_tag_internal_emit.
  - by rewrite (mapM_emit _ (tag_update tag_name size ptr false)
                  (tag_calls tag_name size ptr false))
      by (intros; apply set_tag_internal_emit).
Qed.

Lemma set_name_formatted_run text p format args world :
  Provider.set_name_formatted text p format args world
  = Provider.set_name p (vsnprintf text 1024 format args) world.
Proof. reflexivity. Qed.

(** C7: set_name hands the name to the single worker, or to every delegate
    from the first to the last: the workers become what set_name_internal
    makes of each, and the driver sees the calls of the first delegate, then
    those of the second, and so on. set_tag does the same with
    set_tag_internal. *)
Theorem set_name_set_tag_fan_out :
  ∀ (p : Provider.t) (world : World),
    (∀ n,
        Provider.set_name p n world =
        match Provider.m_worker_ptr p with
        | Some worker =>
            Done (Provider.with_worker p (name_update n false worker))
                 (emit world (name_calls n false worker))
        | None =>
            Done (Provider.with_delegate_workers p
                    (map (name_update n false) (Provider.m_delegate_workers p)))
                 (emit world
                    (concat (map (name_calls n false) (Provider.m_delegate_workers p))))
        end) ∧
    (∀ tag_name size ptr,
        Provider.set_tag p tag_name size ptr world =
        match Provider.m_worker_ptr p with
        | Some worker =>
            Done (Provider.with_worker p (tag_update tag_name size ptr false worker))
                 (emit world (tag_calls tag_name size ptr false worker))
        | None =>
            Done (Provider.with_delegate_workers p
                    (map (tag_update tag_name size ptr false)
                         (Provider.m_delegate_workers p)))
                 (emit world
                    (concat (map (tag_calls tag_name size ptr false)
                                 (Provider.m_delegate_workers p))))
        end) ∧
    (∀ worker n env,
        Worker.set_name_internal worker n false env =
        Done (name_update n false worker) (emit env (name_calls n false worker))) ∧
    (∀ worker tag_name size ptr env,
        Worker.set_tag_internal worker tag_name size ptr false env =
        Done (tag_update tag_name size ptr false worker)
             (emit env (tag_calls tag_name size ptr false worker))).
Proof.
  intros p world. repeat split.
  - intros. apply set_name_run.
  - intros. apply set_tag_run.
  - intros. apply set_name_internal_emit.
  - intros. apply set_tag_internal_emit.
Qed.

Lemma substring_0_all (s : string) (n : nat) :
  String.length s ≤ n → substring 0 n s = s.
Proof.
  revert n. induction s as [|c s IH]; intros [|n] Hlen; simpl in *;
    try reflexivity; try lia.
  rewrite IH by lia. reflexivity.
Qed.

Lemma substring_0_length (s : string) (n : nat) :
  n ≤ String.length s → String.length (substring 0 n s) = n.
Proof.
  revert n. induction s as [|c s IH]; intros [|n] Hlen; simpl in *;
    try reflexivity; try lia.
  rewrite IH by lia. reflexivity.
Qed.

(** C8: set_name_formatted does what set_name does with the text left in the
    1024-byte buffer: the whole rendered text when it fits with its
    terminator (fewer than 1024 characters), its first 1023 characters
    otherwise. *)
Theorem set_name_formatted_is_set_name :
  ∀ (text : string → list printf_arg → string) (p : Provider.t)
    (format : string) (args : list printf_arg) (world : World),
    let rendered := text format args in
    let applied :=
      if (String.length rendered <? 1024)%nat then rendered
      else substring 0 1023 rendered in
    Provider.set_name_formatted text p format args world
    = Provider.set_name p applied world ∧
    String.length applied < 1024.
Proof.
  intros text p format args world rendered applied.
  assert (Happ : vsnprintf text 1024 format args = applied).
  { unfold vsnprintf, applied. fold rendered.
    change (1024 - 1) with 1023.
    destruct (Nat.ltb_spec (String.length rendered) 1024) as [Hlt|Hge].
    - apply substring_0_all. lia.
    - reflexivity. }
  split.
  - by rewrite set_name_formatted_run, Happ.
  - unfold applied.
    destruct (Nat.ltb_spec (String.length rendered) 1024) as [Hlt|Hge]; [lia|].
    rewrite substring_0_length by lia. lia.
Qed.

(** ** The mode of a provider *)

Lemma with_delegate_workers_same p :
  Provider.with_delegate_workers p (Provider.m_delegate_workers p) = p.
Proof. by destruct p. Qed.

Lemma remove_delegate_shape p h world p' world' :
  Provider.remove_delegate p h world = Done p' world' →
  Provider.m_worker_ptr p = None ∧
  ∃ ws, p' = Provider.with_delegate_workers p ws.
Proof.
  unfold Provider.remove_delegate, Provider.worker_is_null.
  destruct (Provider.m_worker_ptr p); [discriminate|].
  rewrite bind_run; simpl. rewrite bind_run.
  destruct (negb _); simpl; [|discriminate].
  rewrite ret_run. intros [= <- _]. eauto.
Qed.

Lemma remove_delegate_wrong_mode p h world :
  Provider.m_worker_ptr p ≠ None →
  Provider.remove_delegate p h world = AssertionFailure.
Proof.
  intros Hmode. unfold Provider.remove_delegate, Provider.worker_is_null.
  by destruct (Provider.m_worker_ptr p).
Qed.

Lemma set_vk_handle_done p h world p' world' :
  Provider.set_vk_handle p h world = Done p' world' →
  ∃ worker,
    Provider.m_worker_ptr p = Some worker ∧
    p' = Provider.with_worker p (Worker.with_vk_handle worker h) ∧
    world' = world.
Proof.
  unfold Provider.set_vk_handle.
  destruct (Provider.m_worker_ptr p) as [worker|]; [|discriminate].
  rewrite bind_run. unfold Worker.set_vk_handle_internal.
  rewrite bind_run. unfold anvil_assert.
  destruct (if (h =? VK_NULL_HANDLE)%N then _ else _); [|discriminate].
  cbv beta iota. rewrite ret_run. cbv beta iota. rewrite ret_run.
  intros [= <- <-]. by exists worker.
Qed.

Lemma set_vk_handle_wrong_mode p h world :
  Provider.m_worker_ptr p = None →
  Provider.set_vk_handle p h world = AssertionFailure.
Proof. intros Hmode. unfold Provider.set_vk_handle. by rewrite Hmode. Qed.

Lemma new_shape device_ptr vk_object_type use_delegates world p world' :
  Provider.new device_ptr vk_object_type use_delegates world = Done p world' →
  Provider.m_delegate_workers p = [] ∧
  if use_delegates then Provider.m_worker_ptr p = None
  else is_Some (Provider.m_worker_ptr p).
Proof.
  unfold Provider.new. rewrite bind_run. unfold expired. cbv beta iota.
  rewrite bind_run. unfold anvil_assert.
  destruct (negb _); [cbv beta iota|discriminate].
  destruct use_delegates; simpl.
  - rewrite ret_run. by intros [= <- _].
  - rewrite bind_run.
    destruct (Worker.new device_ptr vk_object_type world) as [worker w1| |];
      try discriminate.
    rewrite ret_run. intros [= <- _]. simpl. eauto.
Qed.

(** No operation that returns moves the worker pointer between null and
    non-null, and with a non-null worker pointer none touches the vector. *)
Lemma run_op_mode debug text o p world p' world' :
  Provider.run_op debug text o p world = Done p' world' →
  Provider.worker_is_null p' = Provider.worker_is_null p ∧
  (is_Some (Provider.m_worker_ptr p) →
   Provider.m_delegate_workers p' = Provider.m_delegate_workers p).
Proof.
  destruct o as [h|h|n|format args|tag_name size ptr|h]; simpl.
  - intros (Hmode & ws & ->)%add_delegate_shape. split; [reflexivity|].
    rewrite Hmode. by intros [? [=]].
  - intros (Hmode & ws & ->)%remove_delegate_shape. split; [reflexivity|].
    rewrite Hmode. by intros [? [=]].
  - rewrite set_name_run. unfold Provider.worker_is_null.
    destruct (Provider.m_worker_ptr p) eqn:Hmode; intros [= <- _]; simpl.
    + done.
    + rewrite Hmode. split; [done|]. by intros [? [=]].
  - rewrite set_name_formatted_run, set_name_run. unfold Provider.worker_is_null.
    destruct (Provider.m_worker_ptr p) eqn:Hmode; intros [= <- _]; simpl.
    + done.
    + rewrite Hmode. split; [done|]. by intros [? [=]].
  - rewrite set_tag_run. unfold Provider.worker_is_null.
    destruct (Provider.m_worker_ptr p) eqn:Hmode; intros [= <- _]; simpl.
    + done.
    + rewrite Hmode. split; [done|]. by intros [? [=]].
  - intros (worker & Hmode & -> & _)%set_vk_handle_done.
    unfold Provider.worker_is_null. by rewrite Hmode.
Qed.

Lemma reachable_mode_invariant debug text use_delegates p :
  Provider.reachable debug text use_delegates p →
  mode_invariant use_delegates p.
Proof.
  induction 1 as [device_ptr vk_object_type w p w' Hnew|p o w p' w' _ IH Hop].
  - apply new_shape in Hnew as [Hws Hmode]. unfold mode_invariant.
    by destruct use_delegates.
  - apply run_op_mode in Hop as [Hnull Hws]. unfold mode_invariant in *.
    unfold Provider.worker_is_null in Hnull.
    destruct use_delegates.
    + rewrite IH in Hnull. by destruct (Provider.m_worker_ptr p').
    + destruct IH as [Hsome Hempty]. rewrite Hws, Hempty by done.
      split; [|done]. destruct Hsome as [worker Hworker].
      rewrite Hworker in Hnull. by destruct (Provider.m_worker_ptr p'); eauto.
Qed.

(** C5: on a provider constructed without delegate workers add_delegate and
    remove_delegate end on the assertion failure path, and so does
    set_vk_handle on a provider constructed with delegate workers, whatever
    happened to the provider since, whatever the handle and the
    environment. *)
Theorem wrong_mode_calls_assert :
  ∀ (debug : bool) (text : string → list printf_arg → string)
    (use_delegates : bool) (p : Provider.t) (h : vk_handle) (world : World),
    Provider.reachable debug text use_delegates p →
    if use_delegates
    then Provider.set_vk_handle p h world = AssertionFailure
    else Provider.add_delegate debug p h world = AssertionFailure ∧
         Provider.remove_delegate p h world = AssertionFailure.
Proof.
  intros debug text use_delegates p h world Hreach.
  apply reachable_mode_invariant in Hreach. unfold mode_invariant in Hreach.
  destruct use_delegates.
  - by apply set_vk_handle_wrong_mode.
  - destruct Hreach as [[worker Hworker] _]. split.
    + apply add_delegate_wrong_mode. by rewrite Hworker.
    + apply remove_delegate_wrong_mode. by rewrite Hworker.
Qed.

(** C6: a provider constructed without delegate workers always has its one
    worker and an empty vector of delegates; one constructed with delegate
    workers always has a null worker pointer; so the two storage forms are
    never populated together, and no operation that returns changes whether
    the worker pointer is null. *)
Theorem storage_forms_exclusive :
  ∀ (debug : bool) (text : string → list printf_arg → string)
    (use_delegates : bool) (p : Provider.t),
    Provider.reachable debug text use_delegates p →
    (if use_delegates then Provider.m_worker_ptr p = None
     else is_Some (Provider.m_worker_ptr p) ∧ Provider.m_delegate_workers p = []) ∧
    ¬ (is_Some (Provider.m_worker_ptr p) ∧ Provider.m_delegate_workers p ≠ []) ∧
    (∀ o world p' world',
        Provider.run_op debug text o p world = Done p' world' →
        Provider.worker_is_null p' = Provider.worker_is_null p ∧
        Provider.reachable debug text use_delegates p').
Proof.
  intros debug text use_delegates p Hreach.
  pose proof (reachable_mode_invariant _ _ _ _ Hreach) as Hinv.
  split; [exact Hinv|split].
  - unfold mode_invariant in Hinv. intros [[worker Hworker] Hws].
    destruct use_delegates.
    + by rewrite Hinv in Hworker.
    + by destruct Hinv as [_ Hempty].
  - intros o world p' world' Hop. split.
    + by apply run_op_mode in Hop as [Hnull _].
    + by eapply Provider.reachable_step.
Qed.

(** C10: in DelegateSet mode with no delegate, set_name, set_name_formatted
    and set_tag return with the provider and the environment unchanged; no
    assertion fails, nothing is stored. The first delegate added afterwards
    starts with the empty name and the empty tag. *)
Theorem setters_without_delegates_are_lost :
  ∀ (debug : bool) (text : string → list printf_arg → string)
    (p : Provider.t) (world : World),
    Provider.m_worker_ptr p = None →
    Provider.m_delegate_workers p = [] →
    (∀ n, Provider.set_name p n world = Done p world) ∧
    (∀ format args,
        Provider.set_name_formatted text p format args world = Done p world) ∧
    (∀ tag_name size ptr,
        Provider.set_tag p tag_name size ptr world = Done p world) ∧
    (∀ n tag_name size ptr h device,
        h ≠ VK_NULL_HANDLE →
        alive world (Provider.m_device_ptr p) = Some device →
        ∃ new,
          (p1 ← Provider.set_name p n;
           p2 ← Provider.set_tag p1 tag_name size ptr;
           Provider.add_delegate debug p2 h) world
          = Done (Provider.with_delegate_workers p [new]) world ∧
          Worker.get_vk_handle_internal new = h ∧
          Worker.get_name new = EmptyString ∧
          Worker.get_tag new = ([], 0%N)).
Proof.
  intros debug text p world Hmode Hws.
  assert (Hname : ∀ n, Provider.set_name p n world = Done p world).
  { intros n. rewrite set_name_run, Hmode, Hws. simpl.
    by rewrite emit_nil, <- Hws, with_delegate_workers_same. }
  assert (Htag : ∀ tag_name size ptr,
             Provider.set_tag p tag_name size ptr world = Done p world).
  { intros tag_name size ptr. rewrite set_tag_run, Hmode, Hws. simpl.
    by rewrite emit_nil, <- Hws, with_delegate_workers_same. }
  repeat split; try done.
  - intros format args. by rewrite set_name_formatted_run.
  - intros n tag_name size ptr h device Hh Hdev.
    exists (fresh_delegate p device h).
    rewrite bind_run, Hname. cbv beta iota.
    rewrite bind_run, Htag. cbv beta iota.
    rewrite (add_delegate_done debug p h world device); try done.
    + unfold joining_delegate, joining_calls. rewrite Hws.
      by rewrite emit_nil.
    + intros _. rewrite Hws. constructor.
Qed.

(** ** Sample runs *)

Example sample_new_delegate_set :
  Provider.new (Some 0) 5%N true sample_world = Done empty_delegate_set sample_world.
Proof. reflexivity. Qed.

Example sample_new_single_handle :
  Provider.new (Some 0) 5%N false sample_world = Done single_handle sample_world.
Proof. reflexivity. Qed.

Example sample_new_expired :
  Provider.new (Some 1) 5%N true sample_world = AssertionFailure.
Proof. reflexivity. Qed.

Example sample_printf_obj_7 : sample_printf "obj-%d" [arg_int 7] = "obj-7".
Proof. reflexivity. Qed.

(** The scenario of the header: both delegates answer to one name and tag. *)
Example sample_scenario :
  (p ← Provider.new (Some 0) 5%N true;
   p ← Provider.add_delegate true p 11%N;
   p ← Provider.set_name p "Texture A";
   p ← Provider.add_delegate true p 12%N;
   Provider.set_tag p 42%N 4 ["a"; "b"; "c"; "d"]%char) sample_world
  = Done two_textures
      (emit sample_world
         [nameObject (Some 0) 5%N 11%N "Texture A";
          nameObject (Some 0) 5%N 12%N "Texture A";
          tagObject (Some 0) 5%N 11%N 42%N 4 ["a"; "b"; "c"; "d"]%char;
          tagObject (Some 0) 5%N 12%N 42%N 4 ["a"; "b"; "c"; "d"]%char]).
Proof. reflexivity. Qed.

Lemma tag_id_only_provider_reachable :
  Provider.reachable true sample_printf true tag_id_only_provider.
Proof.
  eapply (Provider.reachable_step _ _ _ _ (Provider.op_set_tag 42%N 0 []) sample_world).
  - eapply (Provider.reachable_step _ _ _ _ (Provider.op_add_delegate 11%N) sample_world).
    + eapply Provider.reachable_new. exact sample_new_delegate_set.
    + reflexivity.
  - reflexivity.
Qed.

(** A tag of zero bytes is outside what set_tag is documented to take (the
    size is the extension's tagSize). Were one given, the first delegate would
    hold a tag id without tag bytes, and the delegate appended next would not
    receive that id. *)
Example zero_size_tag_is_not_copied :
  Provider.add_delegate true tag_id_only_provider 12%N sample_world
  = Done (Provider.mk [tag_id_only_worker; untagged_worker] (Some 0) 5%N None)
         sample_world ∧
  Worker.get_tag tag_id_only_worker = ([], 42%N) ∧
  Worker.get_tag untagged_worker = ([], 0%N).
Proof. repeat split; reflexivity. Qed.

Lemma add_delegate_assertions_witness :
  Provider.add_delegate true empty_delegate_set VK_NULL_HANDLE sample_world
  = AssertionFailure ∧
  Provider.add_delegate true texture_provider 11%N sample_world = AssertionFailure ∧
  ∃ new world',
    Provider.add_delegate true texture_provider 12%N sample_world
    = Done (Provider.with_delegate_workers texture_provider
              (Provider.m_delegate_workers texture_provider ++ [new])) world' ∧
    Worker.get_vk_handle_internal new = 12%N.
Proof.
  split; [|split].
  - apply (proj1 (add_delegate_assertions true empty_delegate_set VK_NULL_HANDLE
                    sample_world)).
    reflexivity.
  - apply (proj1 (proj2 (add_delegate_assertions true texture_provider 11%N sample_world)));
      [reflexivity|].
    exists (texture_worker 11%N). split; [apply list_elem_of_here|reflexivity].
  - apply (proj2 (proj2 (add_delegate_assertions true texture_provider 12%N
                           sample_world)) eq_refl) with (device := sample_device);
      [discriminate| |reflexivity].
    intros _. repeat constructor. unfold bound_to; simpl. discriminate.
Defined.

Lemma set_name_repeated_calls_driver_at_most_once_witness :
  (∃ w' calls,
      set_name_repeatedly 3 (texture_worker 11%N) "Texture A" failing_world
      = Done w' (emit failing_world calls) ∧ length calls ≤ 1) ∧
  Worker.set_name_internal (texture_worker 11%N) "Texture A" false failing_world
  = Done (texture_worker 11%N) failing_world.
Proof.
  destruct (set_name_repeated_calls_driver_at_most_once
              (texture_worker 11%N) "Texture A" 3 failing_world) as [Hrun Hnoop].
  split; [exact Hrun|]. apply Hnoop. reflexivity.
Defined.

Lemma wrong_mode_calls_assert_witness :
  Provider.set_vk_handle empty_delegate_set 11%N sample_world = AssertionFailure ∧
  Provider.add_delegate true single_handle 11%N sample_world = AssertionFailure ∧
  Provider.remove_delegate single_handle 11%N sample_world = AssertionFailure.
Proof.
  split.
  - apply (wrong_mode_calls_assert true sample_printf true empty_delegate_set
             11%N sample_world).
    eapply Provider.reachable_new. exact sample_new_delegate_set.
  - apply (wrong_mode_calls_assert true sample_printf false single_handle
             11%N sample_world).
    eapply Provider.reachable_new. exact sample_new_single_handle.
Defined.

Lemma storage_forms_exclusive_witness :
  Provider.m_worker_ptr tag_id_only_provider = None ∧
  is_Some (Provider.m_worker_ptr single_handle) ∧
  Provider.m_delegate_workers single_handle = [].
Proof.
  split.
  - apply (storage_forms_exclusive true sample_printf true tag_id_only_provider).
    exact tag_id_only_provider_reachable.
  - apply (storage_forms_exclusive true sample_printf false single_handle).
    eapply Provider.reachable_new. exact sample_new_single_handle.
Defined.

Lemma remove_delegate_erases_first_match_witness :
  Provider.remove_delegate two_textures 11%N sample_world
  = Done (Provider.with_delegate_workers two_textures ([] ++ [texture_worker 12%N]))
         sample_world.
Proof.
  apply (proj1 (remove_delegate_erases_first_match two_textures 11%N sample_world
                  eq_refl) [] (texture_worker 11%N) [texture_worker 12%N]);
    [reflexivity|reflexivity|constructor].
Defined.

Lemma setters_without_delegates_are_lost_witness :
  Provider.set_name empty_delegate_set "Texture A" sample_world
  = Done empty_delegate_set sample_world ∧
  ∃ new,
    (p1 ← Provider.set_name empty_delegate_set "Texture A";
     p2 ← Provider.set_tag p1 42%N 4 ["a"; "b"; "c"; "d"]%char;
     Provider.add_delegate true p2 11%N) sample_world
    = Done (Provider.with_delegate_workers empty_delegate_set [new]) sample_world ∧
    Worker.get_vk_handle_internal new = 11%N ∧
    Worker.get_name new = EmptyString ∧
    Worker.get_tag new = ([], 0%N).
Proof.
  destruct (setters_without_delegates_are_lost true sample_printf
              empty_delegate_set sample_world eq_refl eq_refl)
    as (Hname & _ & _ & Hadd).
  split; [apply Hname|].
  apply (Hadd "Texture A" 42%N 4 ["a"; "b"; "c"; "d"]%char 11%N sample_device);
    [discriminate|reflexivity].
Defined.

(** The example of the formatted name. *)
Example set_name_formatted_obj_7 :
  Provider.set_name_formatted sample_printf texture_provider "obj-%d" [arg_int 7] sample_world
  = Provider.set_name texture_provider "obj-7" sample_world.
Proof. reflexivity. Qed.

(** * Further properties *)

(** ** Inversion of add_delegate and remove_delegate *)

Lemma bound_or_not h ws :
  Forall (λ d, ¬ bound_to h d) ws ∨ ∃ d, d ∈ ws ∧ bound_to h d.
Proof.
  induction ws as [|d ws [IH|(x & Hin & Hx)]].
  - left. constructor.
  - destruct (decide (Worker.get_vk_handle_internal d = h)) as [Hd|Hd].
    + right. exists d. split; [apply list_elem_of_here|done].
    + left. by constructor.
  - right. exists x. split; [by apply list_elem_of_further|done].
Qed.

Lemma remove_delegate_done p h world before w after :
  Provider.m_worker_ptr p = None →
  Provider.m_delegate_workers p = before ++ w :: after →
  bound_to h w →
  Forall (λ d, ¬ bound_to h d) before →
  Provider.remove_delegate p h world
  = Done (Provider.with_delegate_workers p (before ++ after)) world.
Proof.
  intros Hmode Hws Hw Hbefore.
  unfold Provider.remove_delegate, Provider.worker_is_null.
  rewrite Hmode, Hws. rewrite !bind_run; simpl.
  rewrite find_worker_first by done.
  rewrite length_app; simpl.
  destruct (Nat.eqb_spec (length before) (length before + S (length after)));
    [lia|simpl].
  by rewrite delete_middle.
Qed.

Lemma remove_delegate_unbound p h world :
  Forall (λ d, ¬ bound_to h d) (Provider.m_delegate_workers p) →
  Provider.remove_delegate p h world = AssertionFailure.
Proof.
  intros Hnone.
  unfold Provider.remove_delegate, Provider.worker_is_null.
  destruct (Provider.m_worker_ptr p); [reflexivity|].
  rewrite !bind_run; simpl.
  rewrite find_worker_none by done.
  by rewrite Nat.eqb_refl.
Qed.

Lemma remove_delegate_inv p h world p' world' :
  Provider.remove_delegate p h world = Done p' world' →
  Provider.m_worker_ptr p = None ∧ world' = world ∧
  ∃ before w after,
    Provider.m_delegate_workers p = before ++ w :: after ∧
    bound_to h w ∧ Forall (λ d, ¬ bound_to h d) before ∧
    p' = Provider.with_delegate_workers p (before ++ after).
Proof.
  intros Hrun.
  destruct (remove_delegate_shape _ _ _ _ _ Hrun) as [Hmode _].
  destruct (bound_or_not h (Provider.m_delegate_workers p)) as [Hnone|Hsome].
  - by rewrite remove_delegate_unbound in Hrun.
  - apply first_bound_split in Hsome as (before & w & after & Hws & Hw & Hbefore).
    rewrite (remove_delegate_done p h world before w after) in Hrun by done.
    injection Hrun as <- <-. split; [done|]. split; [done|].
    by exists before, w, after.
Qed.

Lemma joining_delegate_handle p device h :
  Worker.get_vk_handle_internal (joining_delegate p device h) = h.
Proof.
  unfold joining_delegate.
  destruct (Provider.m_delegate_workers p); [reflexivity|].
  by rewrite tag_copy_handle, name_update_handle.
Qed.

Lemma add_delegate_inv debug p h world p' world' :
  Provider.add_delegate debug p h world = Done p' world' →
  Provider.m_worker_ptr p = None ∧
  h ≠ VK_NULL_HANDLE ∧
  (debug = true → Forall (λ d, ¬ bound_to h d) (Provider.m_delegate_workers p)) ∧
  ∃ device,
    alive world (Provider.m_device_ptr p) = Some device ∧
    p' = Provider.with_delegate_workers p
           (Provider.m_delegate_workers p ++ [joining_delegate p device h]) ∧
    world' = emit world (joining_calls p device h).
Proof.
  intros Hrun.
  destruct (add_delegate_shape _ _ _ _ _ _ Hrun) as [Hmode _].
  split; [done|].
  assert (Hh : h ≠ VK_NULL_HANDLE).
  { intros ->. by rewrite add_delegate_null in Hrun. }
  split; [done|].
  assert (Hdup : debug = true →
                 Forall (λ d, ¬ bound_to h d) (Provider.m_delegate_workers p)).
  { intros ->.
    destruct (bound_or_not h (Provider.m_delegate_workers p)) as [Hnone|Hsome];
      [done|].
    by rewrite add_delegate_duplicate in Hrun. }
  split; [done|].
  destruct (alive world (Provider.m_device_ptr p)) as [device|] eqn:Hdev.
  - rewrite (add_delegate_done debug p h world device) in Hrun by done.
    injection Hrun as <- <-. by exists device.
  - by rewrite add_delegate_expired in Hrun.
Qed.

(** ** What the delegates of a provider keep *)

Lemma name_update_origin name force w :
  Worker.m_device_ptr (name_update name force w) = Worker.m_device_ptr w ∧
  Worker.m_vk_object_type (name_update name force w) = Worker.m_vk_object_type w.
Proof. unfold name_update. by destruct (name_is_cached w name force). Qed.

Lemma tag_update_origin tag_name size ptr force w :
  Worker.m_device_ptr (tag_update tag_name size ptr force w) = Worker.m_device_ptr w ∧
  Worker.m_vk_object_type (tag_update tag_name size ptr force w)
  = Worker.m_vk_object_type w.
Proof.
  unfold tag_update. by destruct (tag_is_cached w tag_name size ptr force).
Qed.

Lemma joining_delegate_origin p device h :
  Worker.m_device_ptr (joining_delegate p device h) = Provider.m_device_ptr p ∧
  Worker.m_vk_object_type (joining_delegate p device h) = Provider.m_vk_object_type p.
Proof.
  unfold joining_delegate.
  destruct (Provider.m_delegate_workers p) as [|existing rest]; [done|].
  unfold tag_copy. destruct (0 <? _).
  - destruct (tag_update_origin (Worker.m_object_tag_name existing)
                (length (Worker.m_object_tag_data existing))
                (Worker.m_object_tag_data existing) false
                (name_update (Worker.get_name existing) false
                   (fresh_delegate p device h))) as [-> ->].
    by destruct (name_update_origin (Worker.get_name existing) false
                   (fresh_delegate p device h)) as [-> ->].
  - by destruct (name_update_origin (Worker.get_name existing) false
                   (fresh_delegate p device h)) as [-> ->].
Qed.

Lemma tag_label_of_tag w1 w2 :
  Worker.get_tag w1 = Worker.get_tag w2 → tag_label w1 = tag_label w2.
Proof. unfold tag_label. by intros ->. Qed.

Lemma joining_delegate_label p device h existing rest :
  Provider.m_delegate_workers p = existing :: rest →
  Worker.get_name (joining_delegate p device h) = Worker.get_name existing ∧
  tag_label (joining_delegate p device h) = tag_label existing.
Proof.
  intros Hws. unfold joining_delegate. rewrite Hws. split.
  - by rewrite tag_copy_name, name_update_name.
  - destruct (Worker.m_object_tag_data existing) as [|c data] eqn:Hdata.
    + rewrite tag_copy_none by done.
      rewrite (tag_label_of_tag _ _ (name_update_tag _ _ _)).
      unfold tag_label, Worker.get_tag. by rewrite Hdata.
    + apply tag_label_of_tag, tag_copy_some. by rewrite Hdata.
Qed.

Lemma handles_not_bound h ws :
  Forall (λ d, ¬ bound_to h d) ws ↔ h ∉ handles ws.
Proof.
  unfold handles. rewrite list_elem_of_fmap, Forall_forall. split.
  - intros Hnone (d & -> & Hin). by apply (Hnone d Hin).
  - intros Hnot d Hin Hd. apply Hnot. exists d. by rewrite <- Hd.
Qed.

Lemma delegates_wf_add debug p device h :
  delegates_wf debug p →
  h ≠ VK_NULL_HANDLE →
  (debug = true → Forall (λ d, ¬ bound_to h d) (Provider.m_delegate_workers p)) →
  delegates_wf debug
    (Provider.with_delegate_workers p
       (Provider.m_delegate_workers p ++ [joining_delegate p device h])).
Proof.
  intros (Hmode & Hnodup & (name & label & Hlabel) & Horigin & Hbound) Hh Hdup.
  split; [done|]. split; [|split; [|split]]; simpl.
  - intros Hdebug. unfold handles. rewrite map_app. simpl.
    rewrite joining_delegate_handle.
    apply NoDup_app. split; [by apply Hnodup|]. split.
    + intros x Hx Hx'. apply list_elem_of_singleton in Hx'. subst x.
      revert Hx. apply handles_not_bound. by apply Hdup.
    + apply NoDup_singleton.
  - destruct (Provider.m_delegate_workers p) as [|existing rest] eqn:Hws.
    + exists (Worker.get_name (joining_delegate p device h)),
             (tag_label (joining_delegate p device h)).
      by repeat constructor.
    + exists name, label. apply Forall_app. split; [done|].
      constructor; [|constructor].
      destruct (joining_delegate_label p device h existing rest Hws) as [-> ->].
      by apply Forall_cons in Hlabel as [Hexisting _].
  - apply Forall_app. split; [done|].
    constructor; [|constructor]. apply joining_delegate_origin.
  - apply Forall_app. split; [done|].
    constructor; [|constructor]. unfold bound_to.
    by rewrite joining_delegate_handle.
Qed.

Lemma delegates_wf_remove debug p before w after :
  delegates_wf debug p →
  Provider.m_delegate_workers p = before ++ w :: after →
  delegates_wf debug (Provider.with_delegate_workers p (before ++ after)).
Proof.
  intros (Hmode & Hnodup & (name & label & Hlabel) & Horigin & Hbound) Hws.
  rewrite Hws in *.
  split; [done|]. split; [|split; [|split]]; simpl.
  - intros Hdebug. specialize (Hnodup Hdebug). unfold handles in *.
    rewrite map_app in *. simpl in Hnodup.
    apply NoDup_app in Hnodup as (Hbefore & Hdisjoint & Hafter).
    apply NoDup_cons in Hafter as [_ Hafter].
    apply NoDup_app. repeat split; [done| |done].
    intros x Hx Hx'. apply (Hdisjoint x Hx). by apply list_elem_of_further.
  - exists name, label.
    apply Forall_app in Hlabel as [Hbefore [_ Hafter]%Forall_cons].
    by apply Forall_app.
  - apply Forall_app in Horigin as [Hbefore [_ Hafter]%Forall_cons].
    by apply Forall_app.
  - apply Forall_app in Hbound as [Hbefore [_ Hafter]%Forall_cons].
    by apply Forall_app.
Qed.

Lemma delegates_wf_map debug p (upd : Worker.t → Worker.t) :
  delegates_wf debug p →
  (∀ d, Worker.get_vk_handle_internal (upd d) = Worker.get_vk_handle_internal d) →
  (∀ d, Worker.m_device_ptr (upd d) = Worker.m_device_ptr d ∧
        Worker.m_vk_object_type (upd d) = Worker.m_vk_object_type d) →
  (∀ name label, ∃ name' label',
      ∀ d, Worker.get_name d = name → tag_label d = label →
           Worker.get_name (upd d) = name' ∧ tag_label (upd d) = label') →
  delegates_wf debug
    (Provider.with_delegate_workers p (map upd (Provider.m_delegate_workers p))).
Proof.
  intros (Hmode & Hnodup & (name & label & Hlabel) & Horigin & Hbound) Hh Ho Hl.
  split; [done|]. split; [|split; [|split]]; simpl.
  - intros Hdebug. unfold handles in *. rewrite map_map.
    rewrite (map_ext _ Worker.get_vk_handle_internal) by done. by apply Hnodup.
  - destruct (Hl name label) as (name' & label' & Hupd).
    exists name', label'. apply Forall_map.
    eapply Forall_impl; [exact Hlabel|]. intros d [Hn Ht]. by apply Hupd.
  - apply Forall_map. eapply Forall_impl; [exact Horigin|].
    intros d [Hd Ht]. simpl. by destruct (Ho d) as [-> ->].
  - apply Forall_map. eapply Forall_impl; [exact Hbound|].
    intros d Hd. unfold bound_to in *. simpl. by rewrite Hh.
Qed.

Lemma run_op_wf debug text o p world p' world' :
  delegates_wf debug p →
  Provider.run_op debug text o p world = Done p' world' →
  delegates_wf debug p'.
Proof.
  intros Hwf. pose proof Hwf as (Hmode & _).
  assert (Hname : ∀ n, delegates_wf debug
            (Provider.with_delegate_workers p
               (map (name_update n false) (Provider.m_delegate_workers p)))).
  { intros n. apply delegates_wf_map; [done| | |].
    - intros d. apply name_update_handle.
    - intros d. apply name_update_origin.
    - intros name label. exists n, label. intros d _ <-. split.
      + apply name_update_name.
      + apply tag_label_of_tag, name_update_tag. }
  destruct o as [h|h|n|format args|tag_name size ptr|h]; simpl.
  - intros (_ & Hh & Hdup & device & _ & -> & _)%add_delegate_inv.
    by apply delegates_wf_add.
  - intros (_ & _ & before & w & after & Hws & _ & _ & ->)%remove_delegate_inv.
    by eapply delegates_wf_remove.
  - rewrite set_name_run, Hmode. intros [= <- _]. apply Hname.
  - rewrite set_name_formatted_run, set_name_run, Hmode. intros [= <- _].
    apply Hname.
  - rewrite set_tag_run, Hmode. intros [= <- _].
    apply delegates_wf_map; [done| | |].
    + intros d. apply tag_update_handle.
    + intros d. apply tag_update_origin.
    + intros name label.
      exists name, (take size ptr, match take size ptr with
                                   | [] => 0%N | _ :: _ => tag_name end).
      intros d <- _. split; [apply tag_update_name|].
      unfold tag_label. by rewrite tag_update_tag.
  - by rewrite set_vk_handle_wrong_mode.
Qed.

Lemma reachable_delegates_wf debug text p :
  Provider.reachable debug text true p → delegates_wf debug p.
Proof.
  induction 1 as [device_ptr vk_object_type w p w' Hnew|p o w p' w' _ IH Hop].
  - apply new_shape in Hnew as [Hws Hmode]. unfold delegates_wf.
    rewrite Hws. split; [done|]. split; [intros _; constructor|].
    split; [|split; constructor]. exists EmptyString, ([], 0%N). constructor.
  - by eapply run_op_wf.
Qed.

(** ** Construction *)

Lemma new_run device_ptr vk_object_type use_delegates world :
  Provider.new device_ptr vk_object_type use_delegates world
  = match alive world device_ptr with
    | None => AssertionFailure
    | Some device =>
        Done (if use_delegates
              then Provider.mk [] device_ptr vk_object_type None
              else Provider.mk [] None 0%N
                     (Some (Worker.mk device_ptr (is_ext_debug_marker_available device)
                                      EmptyString [] 0%N VK_NULL_HANDLE vk_object_type)))
             world
    end.
Proof.
  unfold Provider.new. rewrite bind_run. unfold expired. cbv beta iota.
  fold (alive world device_ptr). rewrite bind_run. unfold anvil_assert.
  destruct (alive world device_ptr) as [device|] eqn:Hdev.
  - rewrite bool_decide_eq_false_2 by done. simpl.
    destruct use_delegates; simpl; [reflexivity|].
    rewrite bind_run. unfold Worker.new. rewrite bind_run. unfold lock.
    cbv beta iota. fold (alive world device_ptr). by rewrite Hdev.
  - by rewrite bool_decide_eq_true_2.
Qed.

(** X1: the constructor ends on the assertion failure path exactly when the
    device has expired, in either mode. With a live device it returns without
    touching the environment: with delegate workers, a provider with no
    delegate and no worker that keeps the device pointer and the object type;
    without, a provider whose one worker has the empty name, the empty tag,
    the null handle, and the device's answer about the extension. *)
Theorem constructor_outcome :
  ∀ (device_ptr : weak_ptr) (vk_object_type : VkDebugReportObjectTypeEXT)
    (use_delegates : bool) (world : World),
    (alive world device_ptr = None →
     Provider.new device_ptr vk_object_type use_delegates world = AssertionFailure) ∧
    (∀ device, alive world device_ptr = Some device →
       ∃ p, Provider.new device_ptr vk_object_type use_delegates world = Done p world ∧
            Provider.m_delegate_workers p = [] ∧
            if use_delegates
            then Provider.m_worker_ptr p = None ∧
                 Provider.m_device_ptr p = device_ptr ∧
                 Provider.m_vk_object_type p = vk_object_type
            else ∃ worker,
                 Provider.m_worker_ptr p = Some worker ∧
                 Worker.get_name worker = EmptyString ∧
                 Worker.get_tag worker = ([], 0%N) ∧
                 Worker.get_vk_handle_internal worker = VK_NULL_HANDLE ∧
                 Worker.m_is_ext_debug_marker_available worker
                 = is_ext_debug_marker_available device ∧
                 Worker.m_vk_object_type worker = vk_object_type).
Proof.
  intros device_ptr vk_object_type use_delegates world. split.
  - intros Hdev. by rewrite new_run, Hdev.
  - intros device Hdev. rewrite new_run, Hdev.
    eexists. split; [reflexivity|].
    destruct use_delegates; simpl; [done|]. split; [done|].
    eexists. by repeat split.
Qed.

(** ** Handles *)

(** X2: under _DEBUG no reachable provider with delegate workers has two
    delegates bound to the same handle. *)
Theorem debug_delegate_handles_distinct :
  ∀ (text : string → list printf_arg → string) (p : Provider.t),
    Provider.reachable true text true p →
    NoDup (handles (Provider.m_delegate_workers p)).
Proof.
  intros text p Hreach.
  apply reachable_delegates_wf in Hreach as (_ & Hnodup & _). by apply Hnodup.
Qed.

(** X3: without _DEBUG add_delegate takes a non-null handle that a delegate
    is bound to already, and the remove_delegate that follows erases the older
    of the two: the new worker stays, last in the vector. *)
Theorem release_duplicate_then_remove :
  ∀ (p : Provider.t) (h : vk_handle) (world : World)
    (before : list Worker.t) (w : Worker.t) (after : list Worker.t)
    (device : BaseDevice),
    Provider.m_worker_ptr p = None →
    Provider.m_delegate_workers p = before ++ w :: after →
    bound_to h w →
    Forall (λ d, ¬ bound_to h d) before →
    h ≠ VK_NULL_HANDLE →
    alive world (Provider.m_device_ptr p) = Some device →
    ∃ new world',
      (p' ← Provider.add_delegate false p h; Provider.remove_delegate p' h) world
      = Done (Provider.with_delegate_workers p (before ++ after ++ [new])) world' ∧
      bound_to h new.
Proof.
  intros p h world before w after device Hmode Hws Hw Hbefore Hh Hdev.
  exists (joining_delegate p device h), (emit world (joining_calls p device h)).
  split; [|apply joining_delegate_handle].
  rewrite bind_run, (add_delegate_done false p h world device) by done.
  cbv beta iota.
  rewrite (remove_delegate_done _ h _ before w (after ++ [joining_delegate p device h]));
    try done.
  simpl. rewrite Hws. by rewrite <- app_assoc.
Qed.

Lemma can_call_driver_bound w :
  Worker.can_call_driver w = true → Worker.get_vk_handle_internal w ≠ VK_NULL_HANDLE.
Proof.
  unfold Worker.can_call_driver, Worker.get_vk_handle_internal.
  intros [_ Hh]%andb_prop. apply negb_true_iff in Hh. by apply N.eqb_neq.
Qed.

Lemma name_calls_shape n force w :
  Forall (λ c, call_handle c = Worker.get_vk_handle_internal w ∧
               call_handle c ≠ VK_NULL_HANDLE ∧ is_name_call n c)
         (name_calls n force w).
Proof.
  unfold name_calls. destruct (name_is_cached w n force); [constructor|].
  destruct (Worker.can_call_driver w) eqn:Hcall; constructor; [|constructor].
  simpl. split; [done|]. split; [|done]. by apply can_call_driver_bound.
Qed.

Lemma tag_calls_shape tag_name size ptr force w :
  Forall (λ c, call_handle c = Worker.get_vk_handle_internal w ∧
               call_handle c ≠ VK_NULL_HANDLE ∧
               is_tag_call tag_name (take size ptr) c)
         (tag_calls tag_name size ptr force w).
Proof.
  unfold tag_calls. destruct (tag_is_cached w tag_name size ptr force); [constructor|].
  destruct (Worker.can_call_driver w) eqn:Hcall; constructor; [|constructor].
  simpl. split; [done|]. split; [|done]. by apply can_call_driver_bound.
Qed.

Lemma tag_calls_length tag_name size ptr force w :
  length (tag_calls tag_name size ptr force w) ≤ 1.
Proof.
  unfold tag_calls.
  destruct (tag_is_cached w tag_name size ptr force); simpl; [lia|].
  destruct (Worker.can_call_driver w); simpl; lia.
Qed.

Lemma joining_calls_shape p device h :
  length (joining_calls p device h) ≤ 2 ∧
  Forall (λ c, call_handle c = h ∧ call_handle c ≠ VK_NULL_HANDLE)
         (joining_calls p device h) ∧
  (Provider.m_delegate_workers p = [] → joining_calls p device h = []).
Proof.
  unfold joining_calls.
  destruct (Provider.m_delegate_workers p) as [|existing rest];
    [by repeat split; simpl; try lia; constructor|].
  split; [|split; [|done]].
  - rewrite length_app.
    pose proof (name_calls_length (Worker.get_name existing) false
                  (fresh_delegate p device h)).
    unfold tag_copy_calls. destruct (0 <? _); simpl; [|lia].
    pose proof (tag_calls_length (Worker.m_object_tag_name existing)
                  (length (Worker.m_object_tag_data existing))
                  (Worker.m_object_tag_data existing) false
                  (name_update (Worker.get_name existing) false
                     (fresh_delegate p device h))).
    lia.
  - apply Forall_app. split.
    + eapply Forall_impl; [apply name_calls_shape|].
      intros c (Hc & Hnull & _). by rewrite Hc in *.
    + unfold tag_copy_calls. destruct (0 <? _); [|constructor].
      eapply Forall_impl; [apply tag_calls_shape|].
      intros c (Hc & Hnull & _). rewrite name_update_handle in Hc.
      by rewrite Hc in *.
Qed.

(** X4: add_delegate(h) followed by remove_delegate(h), for a non-null handle
    no delegate is bound to, gives the provider back as it was; all that
    remains is the driver calls made for h. *)
Theorem add_then_remove_restores :
  ∀ (debug : bool) (p : Provider.t) (h : vk_handle) (world : World)
    (device : BaseDevice),
    Provider.m_worker_ptr p = None →
    Forall (λ d, ¬ bound_to h d) (Provider.m_delegate_workers p) →
    h ≠ VK_NULL_HANDLE →
    alive world (Provider.m_device_ptr p) = Some device →
    ∃ calls,
      (p' ← Provider.add_delegate debug p h; Provider.remove_delegate p' h) world
      = Done p (emit world calls) ∧
      Forall (λ c, call_handle c = h) calls.
Proof.
  intros debug p h world device Hmode Hnone Hh Hdev.
  exists (joining_calls p device h). split.
  - rewrite bind_run, (add_delegate_done debug p h world device) by done.
    cbv beta iota.
    rewrite (remove_delegate_done _ h _ (Provider.m_delegate_workers p)
               (joining_delegate p device h) []); try done.
    + rewrite app_nil_r. simpl. by destruct p.
    + apply joining_delegate_handle.
  - destruct (joining_calls_shape p device h) as (_ & Hcalls & _).
    eapply Forall_impl; [exact Hcalls|]. by intros c [Hc _].
Qed.

(** X5: the delegates of a reachable provider answer to one label: any two
    of them have the same name and the same tag bytes, and the same tag id
    whenever they have tag bytes. *)
Theorem delegates_share_one_label :
  ∀ (debug : bool) (text : string → list printf_arg → string) (p : Provider.t),
    Provider.reachable debug text true p →
    ∀ d1 d2,
      d1 ∈ Provider.m_delegate_workers p →
      d2 ∈ Provider.m_delegate_workers p →
      Worker.get_name d1 = Worker.get_name d2 ∧
      Worker.m_object_tag_data d1 = Worker.m_object_tag_data d2 ∧
      (Worker.m_object_tag_data d1 ≠ [] →
       Worker.m_object_tag_name d1 = Worker.m_object_tag_name d2).
Proof.
  intros debug text p Hreach d1 d2 H1 H2.
  apply reachable_delegates_wf in Hreach as (_ & _ & (name & label & Hlabel) & _).
  rewrite Forall_forall in Hlabel.
  destruct (Hlabel d1 H1) as [Hn1 Hl1], (Hlabel d2 H2) as [Hn2 Hl2].
  split; [congruence|].
  rewrite <- Hl2 in Hl1. unfold tag_label, Worker.get_tag in Hl1.
  injection Hl1 as Hdata Hid. split; [done|].
  intros Hne. rewrite <- Hdata in Hid.
  by destruct (Worker.m_object_tag_data d1).
Qed.

(** X6: under _DEBUG, once remove_delegate(h) has returned no delegate is
    bound to h any more, and add_delegate(h) is accepted again whenever the
    device is alive. *)
Theorem debug_remove_frees_handle :
  ∀ (text : string → list printf_arg → string) (p : Provider.t) (h : vk_handle)
    (world : World) (p' : Provider.t) (world' : World),
    Provider.reachable true text true p →
    Provider.remove_delegate p h world = Done p' world' →
    Forall (λ d, ¬ bound_to h d) (Provider.m_delegate_workers p') ∧
    ∀ world2 device,
      alive world2 (Provider.m_device_ptr p') = Some device →
      ∃ p'' world'', Provider.add_delegate true p' h world2 = Done p'' world''.
Proof.
  intros text p h world p' world' Hreach Hrun.
  apply reachable_delegates_wf in Hreach as (_ & Hnodup & _ & _ & Hbound).
  specialize (Hnodup eq_refl).
  apply remove_delegate_inv in Hrun
    as (Hmode & _ & before & w & after & Hws & Hw & Hbefore & ->).
  assert (Hh : h ≠ VK_NULL_HANDLE).
  { rewrite Hws in Hbound.
    apply Forall_app in Hbound as [_ [Hnull _]%Forall_cons].
    intros ->. by apply Hnull. }
  assert (Hfree : Forall (λ d, ¬ bound_to h d) (before ++ after)).
  { rewrite Hws in Hnodup. unfold handles in Hnodup.
    rewrite map_app in Hnodup. simpl in Hnodup.
    apply NoDup_app in Hnodup as (_ & _ & Hafter).
    apply NoDup_cons in Hafter as [Hnotin _].
    apply Forall_app. split; [done|].
    apply handles_not_bound. by rewrite <- Hw. }
  split; [done|].
  intros world2 device Hdev. eexists _, _.
  by apply (add_delegate_done true _ h world2 device).
Qed.

(** X8: the driver calls add_delegate(h) makes are at most two, all for the
    handle h and none for the null handle; it makes none when the provider
    has no delegate yet. The delegates already present are left as they
    are. *)
Theorem add_delegate_calls_only_for_new_handle :
  ∀ (debug : bool) (p : Provider.t) (h : vk_handle) (world : World)
    (p' : Provider.t) (world' : World),
    Provider.add_delegate debug p h world = Done p' world' →
    ∃ new calls,
      Provider.m_delegate_workers p' = Provider.m_delegate_workers p ++ [new] ∧
      world' = emit world calls ∧
      length calls ≤ 2 ∧
      Forall (λ c, call_handle c = h ∧ call_handle c ≠ VK_NULL_HANDLE) calls ∧
      (Provider.m_delegate_workers p = [] → calls = []).
Proof.
  intros debug p h world p' world' Hrun.
  apply add_delegate_inv in Hrun as (_ & _ & _ & device & _ & -> & ->).
  exists (joining_delegate p device h), (joining_calls p device h).
  destruct (joining_calls_shape p device h) as (Hlen & Hcalls & Hnone).
  by repeat split.
Qed.

(** X11: every delegate of a reachable provider was built from the
    provider's own device pointer and object type, and still carries them. *)
Theorem delegates_carry_provider_origin :
  ∀ (debug : bool) (text : string → list printf_arg → string) (p : Provider.t),
    Provider.reachable debug text true p →
    Forall (λ d, Worker.m_device_ptr d = Provider.m_device_ptr p ∧
                 Worker.m_vk_object_type d = Provider.m_vk_object_type p)
           (Provider.m_delegate_workers p).
Proof.
  intros debug text p Hreach.
  by apply reachable_delegates_wf in Hreach as (_ & _ & _ & Horigin & _).
Qed.

(** ** The setters on a provider *)

Lemma set_name_fan_out p n world :
  Provider.set_name p n world
  = Done (fan_out (name_update n false) p)
         (emit world (fan_out_calls (name_calls n false) p)).
Proof.
  rewrite set_name_run. unfold fan_out, fan_out_calls.
  by destruct (Provider.m_worker_ptr p).
Qed.

Lemma set_tag_fan_out p tag_name size ptr world :
  Provider.set_tag p tag_name size ptr world
  = Done (fan_out (tag_update tag_name size ptr false) p)
         (emit world (fan_out_calls (tag_calls tag_name size ptr false) p)).
Proof.
  rewrite set_tag_run. unfold fan_out, fan_out_calls.
  by destruct (Provider.m_worker_ptr p).
Qed.

Lemma workers_of_fan_out upd p :
  workers_of (fan_out upd p) = map upd (workers_of p).
Proof.
  unfold workers_of, fan_out.
  by destruct (Provider.m_worker_ptr p) eqn:Hmode; simpl; [|rewrite Hmode].
Qed.

Lemma fan_out_same_bindings upd p :
  (∀ d, Worker.get_vk_handle_internal (upd d) = Worker.get_vk_handle_internal d) →
  same_bindings p (fan_out upd p).
Proof.
  intros Hh. unfold same_bindings. rewrite workers_of_fan_out.
  split.
  - unfold handles. rewrite map_map. by apply map_ext.
  - unfold fan_out, Provider.worker_is_null.
    by destruct (Provider.m_worker_ptr p) eqn:Hmode; simpl; [|rewrite Hmode].
Qed.

Lemma fan_out_again upd p :
  (∀ d, upd (upd d) = upd d) → fan_out upd (fan_out upd p) = fan_out upd p.
Proof.
  intros Hupd. unfold fan_out.
  destruct (Provider.m_worker_ptr p) eqn:Hmode; simpl.
  - unfold Provider.with_worker; simpl. by rewrite Hupd.
  - rewrite Hmode. unfold Provider.with_delegate_workers; simpl.
    rewrite map_map. f_equal. by apply map_ext.
Qed.

Lemma fan_out_calls_again upd calls p :
  (∀ d, calls (upd d) = []) → fan_out_calls calls (fan_out upd p) = [].
Proof.
  intros Hcalls. unfold fan_out_calls, fan_out.
  destruct (Provider.m_worker_ptr p) eqn:Hmode; simpl; [done|].
  rewrite Hmode, map_map.
  induction (Provider.m_delegate_workers p) as [|d ws IH]; simpl; [done|].
  by rewrite Hcalls, IH.
Qed.

Lemma fan_out_calls_handles calls p (Q : DriverCall → Prop) :
  (∀ d, length (calls d) ≤ 1 ∧
        Forall (λ c, call_handle c = Worker.get_vk_handle_internal d ∧ Q c) (calls d)) →
  map call_handle (fan_out_calls calls p) `sublist_of` handles (workers_of p) ∧
  Forall Q (fan_out_calls calls p).
Proof.
  intros Hcalls.
  assert (Hone : ∀ d, map call_handle (calls d) `sublist_of`
                      [Worker.get_vk_handle_internal d] ∧ Forall Q (calls d)).
  { intros d. destruct (Hcalls d) as [Hlen Hshape].
    destruct (calls d) as [|c [|c' cs]]; simpl in *; [| |lia].
    - split; [apply sublist_nil_l|constructor].
    - apply Forall_cons in Hshape as [[-> Hq] _].
      split; [done|by constructor]. }
  unfold fan_out_calls, workers_of, handles.
  destruct (Provider.m_worker_ptr p) as [worker|]; [by apply Hone|].
  induction (Provider.m_delegate_workers p) as [|d ws [IHs IHq]]; simpl.
  - split; [done|constructor].
  - destruct (Hone d) as [Hs Hq]. split.
    + rewrite map_app.
      by apply (sublist_app _ [Worker.get_vk_handle_internal d]).
    + by apply Forall_app.
Qed.

Lemma name_update_again n d :
  name_update n false (name_update n false d) = name_update n false d ∧
  name_calls n false (name_update n false d) = [].
Proof.
  assert (Hcached : name_is_cached (name_update n false d) n false = true).
  { unfold name_is_cached. pose proof (name_update_name n false d) as Hn.
    unfold Worker.get_name in Hn. by rewrite Hn, bool_decide_eq_true_2. }
  unfold name_update at 1, name_calls. by rewrite Hcached.
Qed.

Lemma tag_update_again tag_name size ptr d :
  size ≤ length ptr →
  tag_update tag_name size ptr false (tag_update tag_name size ptr false d)
  = tag_update tag_name size ptr false d ∧
  tag_calls tag_name size ptr false (tag_update tag_name size ptr false d) = [].
Proof.
  intros Hsize.
  assert (Hcached :
    tag_is_cached (tag_update tag_name size ptr false d) tag_name size ptr false = true).
  { unfold tag_is_cached.
    pose proof (tag_update_tag tag_name size ptr false d) as Ht.
    unfold Worker.get_tag in Ht. injection Ht as -> ->.
    rewrite length_take, Nat.min_l by lia.
    by rewrite !bool_decide_eq_true_2 by done. }
  unfold tag_update at 1, tag_calls. by rewrite Hcached.
Qed.

(** X7: set_name, set_name_formatted and set_tag always return, in either
    mode, and never rebind: afterwards the provider binds the same handles in
    the same order, is in the same mode and keeps its device pointer and
    object type. *)
Theorem setters_keep_bindings :
  ∀ (text : string → list printf_arg → string) (p : Provider.t) (world : World),
    (∀ n, ∃ p' world',
        Provider.set_name p n world = Done p' world' ∧ same_bindings p p') ∧
    (∀ format args, ∃ p' world',
        Provider.set_name_formatted text p format args world = Done p' world' ∧
        same_bindings p p') ∧
    (∀ tag_name size ptr, ∃ p' world',
        Provider.set_tag p tag_name size ptr world = Done p' world' ∧
        same_bindings p p').
Proof.
  intros text p world.
  assert (Hname : ∀ n, ∃ p' world',
             Provider.set_name p n world = Done p' world' ∧ same_bindings p p').
  { intros n. eexists _, _. split; [apply set_name_fan_out|].
    apply fan_out_same_bindings. intros d. apply name_update_handle. }
  split; [done|]. split.
  - intros format args. rewrite set_name_formatted_run. apply Hname.
  - intros tag_name size ptr. eexists _, _. split; [apply set_tag_fan_out|].
    apply fan_out_same_bindings. intros d. apply tag_update_handle.
Qed.

(** X10: a second set_name with the same name, or a second set_tag with the
    same tag (its [size] bytes being there to read), changes nothing and
    calls nothing: the pair of calls does what the first one does. *)
Theorem setters_idempotent :
  ∀ (p : Provider.t) (world : World),
    (∀ n,
        (p1 ← Provider.set_name p n; Provider.set_name p1 n) world
        = Provider.set_name p n world) ∧
    (∀ tag_name size ptr,
        size ≤ length ptr →
        (p1 ← Provider.set_tag p tag_name size ptr;
         Provider.set_tag p1 tag_name size ptr) world
        = Provider.set_tag p tag_name size ptr world).
Proof.
  intros p world. split.
  - intros n. rewrite bind_run, !set_name_fan_out.
    rewrite fan_out_again by (intros d; apply name_update_again).
    rewrite fan_out_calls_again by (intros d; apply name_update_again).
    by rewrite emit_nil.
  - intros tag_name size ptr Hsize. rewrite bind_run, !set_tag_fan_out.
    rewrite fan_out_again by (intros d; by apply tag_update_again).
    rewrite fan_out_calls_again by (intros d; by apply tag_update_again).
    by rewrite emit_nil.
Qed.

(** X12: the driver calls of set_name(n) are naming calls with the name n,
    those of set_tag tagging calls with the tag given; there is at most one
    per worker, in the order of the workers, each for the handle its worker is
    bound to, and none for a null handle. *)
Theorem setters_call_for_bound_handles :
  ∀ (p : Provider.t) (world : World),
    (∀ n, ∃ p' calls,
        Provider.set_name p n world = Done p' (emit world calls) ∧
        map call_handle calls `sublist_of` handles (workers_of p) ∧
        Forall (λ c, call_handle c ≠ VK_NULL_HANDLE ∧ is_name_call n c) calls) ∧
    (∀ tag_name size ptr, ∃ p' calls,
        Provider.set_tag p tag_name size ptr world = Done p' (emit world calls) ∧
        map call_handle calls `sublist_of` handles (workers_of p) ∧
        Forall (λ c, call_handle c ≠ VK_NULL_HANDLE ∧
                     is_tag_call tag_name (take size ptr) c) calls).
Proof.
  intros p world. split.
  - intros n. eexists _, _. split; [apply set_name_fan_out|].
    apply fan_out_calls_handles. intros d.
    split; [apply name_calls_length|apply name_calls_shape].
  - intros tag_name size ptr. eexists _, _. split; [apply set_tag_fan_out|].
    apply fan_out_calls_handles. intros d.
    split; [apply tag_calls_length|apply tag_calls_shape].
Qed.

(** X13: after set_name(n) every worker of the provider, the single one or
    each delegate, reports the name n; after set_tag(id, size, ptr) every
    worker reports the tag id and the first [size] bytes at [ptr]. *)
Theorem setters_reach_every_worker :
  ∀ (p : Provider.t) (world : World),
    (∀ n, ∃ p' world',
        Provider.set_name p n world = Done p' world' ∧
        Forall (λ w, Worker.get_name w = n) (workers_of p')) ∧
    (∀ tag_name size ptr, ∃ p' world',
        Provider.set_tag p tag_name size ptr world = Done p' world' ∧
        Forall (λ w, Worker.get_tag w = (take size ptr, tag_name)) (workers_of p')).
Proof.
  intros p world. split.
  - intros n. eexists _, _. split; [apply set_name_fan_out|].
    rewrite workers_of_fan_out. apply Forall_map, Forall_forall.
    intros d _. apply name_update_name.
  - intros tag_name size ptr. eexists _, _. split; [apply set_tag_fan_out|].
    rewrite workers_of_fan_out. apply Forall_map, Forall_forall.
    intros d _. apply tag_update_tag.
Qed.

(** X14: an add_delegate that returns leaves one delegate more, a
    remove_delegate that returns one delegate fewer, and no other operation
    changes the number of delegates. *)
Theorem delegate_count :
  ∀ (debug : bool) (text : string → list printf_arg → string) (o : Provider.op)
    (p : Provider.t) (world : World) (p' : Provider.t) (world' : World),
    Provider.run_op debug text o p world = Done p' world' →
    match o with
    | Provider.op_add_delegate _ =>
        length (Provider.m_delegate_workers p')
        = S (length (Provider.m_delegate_workers p))
    | Provider.op_remove_delegate _ =>
        S (length (Provider.m_delegate_workers p'))
        = length (Provider.m_delegate_workers p)
    | _ =>
        length (Provider.m_delegate_workers p')
        = length (Provider.m_delegate_workers p)
    end.
Proof.
  intros debug text o p world p' world'.
  assert (Hfan : ∀ upd, length (Provider.m_delegate_workers (fan_out upd p))
                        = length (Provider.m_delegate_workers p)).
  { intros upd. unfold fan_out.
    destruct (Provider.m_worker_ptr p); simpl; [done|apply length_map]. }
  destruct o as [h|h|n|format args|tag_name size ptr|h]; simpl.
  - intros (_ & _ & _ & device & _ & -> & _)%add_delegate_inv. simpl.
    rewrite length_app. simpl. lia.
  - intros (_ & _ & before & w & after & -> & _ & _ & ->)%remove_delegate_inv.
    simpl. rewrite !length_app. simpl. lia.
  - rewrite set_name_fan_out. by intros [= <- _].
  - rewrite set_name_formatted_run, set_name_fan_out. by intros [= <- _].
  - rewrite set_tag_fan_out. by intros [= <- _].
  - by intros (worker & _ & -> & _)%set_vk_handle_done.
Qed.

(** ** Sample runs of the further properties *)

Lemma two_textures_reachable :
  Provider.reachable true sample_printf true two_textures.
Proof.
  pose (named := λ h, Worker.mk (Some 0) true "Texture A" [] 0%N h 5%N).
  apply (Provider.reachable_step _ _ _
           (Provider.mk [named 11%N; named 12%N] (Some 0) 5%N None)
           (Provider.op_set_tag 42%N 4 ["a"; "b"; "c"; "d"]%char)
           sample_world _ (emit sample_world
              [tagObject (Some 0) 5%N 11%N 42%N 4 ["a"; "b"; "c"; "d"]%char;
               tagObject (Some 0) 5%N 12%N 42%N 4 ["a"; "b"; "c"; "d"]%char]));
    [|reflexivity].
  apply (Provider.reachable_step _ _ _
           (Provider.mk [named 11%N] (Some 0) 5%N None)
           (Provider.op_add_delegate 12%N)
           sample_world _ (emit sample_world
              [nameObject (Some 0) 5%N 12%N "Texture A"]));
    [|reflexivity].
  apply (Provider.reachable_step _ _ _
           (Provider.mk [Worker.mk (Some 0) true EmptyString [] 0%N 11%N 5%N]
                        (Some 0) 5%N None)
           (Provider.op_set_name "Texture A")
           sample_world _ (emit sample_world
              [nameObject (Some 0) 5%N 11%N "Texture A"]));
    [|reflexivity].
  apply (Provider.reachable_step _ _ _ empty_delegate_set
           (Provider.op_add_delegate 11%N) sample_world _ sample_world);
    [|reflexivity].
  eapply Provider.reachable_new. exact sample_new_delegate_set.
Qed.

Lemma constructor_outcome_witness :
  Provider.new (Some 1) 5%N false sample_world = AssertionFailure ∧
  ∃ p, Provider.new (Some 0) 5%N true sample_world = Done p sample_world ∧
       Provider.m_delegate_workers p = [] ∧
       Provider.m_worker_ptr p = None ∧
       Provider.m_device_ptr p = Some 0 ∧
       Provider.m_vk_object_type p = 5%N.
Proof.
  split.
  - apply (proj1 (constructor_outcome (Some 1) 5%N false sample_world)).
    reflexivity.
  - apply (proj2 (constructor_outcome (Some 0) 5%N true sample_world) sample_device).
    reflexivity.
Defined.

Lemma debug_delegate_handles_distinct_witness :
  NoDup (handles (Provider.m_delegate_workers two_textures)).
Proof.
  apply (debug_delegate_handles_distinct sample_printf two_textures).
  exact two_textures_reachable.
Defined.

Lemma release_duplicate_then_remove_witness :
  ∃ new world',
    (p' ← Provider.add_delegate false texture_provider 11%N;
     Provider.remove_delegate p' 11%N) sample_world
    = Done (Provider.with_delegate_workers texture_provider ([] ++ [] ++ [new])) world' ∧
    bound_to 11%N new.
Proof.
  apply (release_duplicate_then_remove texture_provider 11%N sample_world
           [] (texture_worker 11%N) [] sample_device);
    [reflexivity|reflexivity|reflexivity|constructor|discriminate|reflexivity].
Defined.

Lemma add_then_remove_restores_witness :
  ∃ calls,
    (p' ← Provider.add_delegate true texture_provider 12%N;
     Provider.remove_delegate p' 12%N) sample_world
    = Done texture_provider (emit sample_world calls) ∧
    Forall (λ c, call_handle c = 12%N) calls.
Proof.
  apply (add_then_remove_restores true texture_provider 12%N sample_world sample_device);
    [reflexivity| |discriminate|reflexivity].
  repeat constructor. unfold bound_to; simpl. discriminate.
Defined.

Lemma delegates_share_one_label_witness :
  Worker.get_name (texture_worker 11%N) = Worker.get_name (texture_worker 12%N) ∧
  Worker.m_object_tag_data (texture_worker 11%N)
  = Worker.m_object_tag_data (texture_worker 12%N) ∧
  (Worker.m_object_tag_data (texture_worker 11%N) ≠ [] →
   Worker.m_object_tag_name (texture_worker 11%N)
   = Worker.m_object_tag_name (texture_worker 12%N)).
Proof.
  apply (delegates_share_one_label true sample_printf two_textures
           two_textures_reachable).
  - apply list_elem_of_here.
  - apply list_elem_of_further, list_elem_of_here.
Defined.

Lemma debug_remove_frees_handle_witness :
  Forall (λ d, ¬ bound_to 11%N d) [texture_worker 12%N] ∧
  ∀ world2 device,
    alive world2 (Some 0) = Some device →
    ∃ p'' world'',
      Provider.add_delegate true
        (Provider.mk [texture_worker 12%N] (Some 0) 5%N None) 11%N world2
      = Done p'' world''.
Proof.
  apply (debug_remove_frees_handle sample_printf two_textures 11%N sample_world
           (Provider.mk [texture_worker 12%N] (Some 0) 5%N None) sample_world
           two_textures_reachable).
  reflexivity.
Defined.

Lemma add_delegate_calls_only_for_new_handle_witness :
  ∃ new calls,
    Provider.m_delegate_workers two_textures
    = Provider.m_delegate_workers texture_provider ++ [new] ∧
    emit sample_world
      [nameObject (Some 0) 5%N 12%N "Texture A";
       tagObject (Some 0) 5%N 12%N 42%N 4 ["a"; "b"; "c"; "d"]%char]
    = emit sample_world calls ∧
    length calls ≤ 2 ∧
    Forall (λ c, call_handle c = 12%N ∧ call_handle c ≠ VK_NULL_HANDLE) calls ∧
    (Provider.m_delegate_workers texture_provider = [] → calls = []).
Proof.
  apply (add_delegate_calls_only_for_new_handle true texture_provider 12%N
           sample_world two_textures).
  reflexivity.
Defined.

Lemma setters_idempotent_witness :
  (p1 ← Provider.set_tag texture_provider 7%N 2 ["x"; "y"; "z"]%char;
   Provider.set_tag p1 7%N 2 ["x"; "y"; "z"]%char) sample_world
  = Provider.set_tag texture_provider 7%N 2 ["x"; "y"; "z"]%char sample_world.
Proof.
  apply (proj2 (setters_idempotent texture_provider sample_world)).
  simpl. lia.
Defined.

Lemma delegates_carry_provider_origin_witness :
  Forall (λ d, Worker.m_device_ptr d = Provider.m_device_ptr two_textures ∧
               Worker.m_vk_object_type d = Provider.m_vk_object_type two_textures)
         (Provider.m_delegate_workers two_textures).
Proof.
  apply (delegates_carry_provider_origin true sample_printf two_textures).
  exact two_textures_reachable.
Defined.

Lemma delegate_count_witness :
  length (Provider.m_delegate_workers two_textures)
  = S (length (Provider.m_delegate_workers texture_provider)).
Proof.
  apply (delegate_count true sample_printf (Provider.op_add_delegate 12%N)
           texture_provider sample_world two_textures
           (emit sample_world
              [nameObject (Some 0) 5%N 12%N "Texture A";
               tagObject (Some 0) 5%N 12%N 42%N 4 ["a"; "b"; "c"; "d"]%char])).
  reflexivity.
Defined.

(** ** The label a new delegate receives *)







